(** * VLM service: payload validation and the retry orchestrator

    A shallow embedding of [Tools/VLMService/vlm.py]: the vector checker
    [is_vector], the payload validator [validate_payload] and the retry loop
    [request_with_validation], with the properties the specification states
    about them.

    Conventions.
    - Python [str] values are [string]s (sequences of bytes).  The models of
      [str.lower], [str.strip] and [float(str)] are exact on ASCII text; a
      byte above 127 is neither a letter, a digit nor white space.
    - A value returned by [json.loads] is a [json]: [None], [bool], [int]
      (unbounded, [Z]), [float] (IEEE binary64, [spec_float]), [str], [list]
      and [dict] with string keys ([gmap string json]).
    - A Python call either returns or raises: [result]. *)

From Stdlib Require Import ZArith String Ascii List Bool Lia.
From Stdlib Require Import Floats.SpecFloat.
From stdpp Require Import gmap strings list fin_maps.

Set Warnings "-register-all,-clear-no-such-hyp".
Open Scope string_scope.

(** ** Values and exceptions *)

Inductive json :=
  | JNull
  | JBool (b : bool)
  | JInt (n : Z)
  | JFloat (f : spec_float)
  | JStr (s : string)
  | JList (l : list json)
  | JDict (d : gmap string json).

Inductive exn :=
  | TypeError
  | ValueError
  | KeyError
  | OverflowError
  | RecursionError.

Inductive result (A : Type) :=
  | Ok (a : A)
  | Raise (e : exn).
Arguments Ok {A} a.
Arguments Raise {A} e.

(** Sequencing of calls that may raise: [x ← r; k] runs [k] when [r]
    returned and propagates the exception otherwise. *)
Global Instance result_bind : MBind result := λ A B k r,
  match r with
  | Ok a => k a
  | Raise e => Raise e
  end.

(** ** Python built-ins used by the service *)

Module Py.

(** The double quote character, for the JSON snippets quoted in prompts. *)
Definition dq : string := String (ascii_of_nat 34) EmptyString.

Definition is_upper (c : ascii) : bool :=
  (65 <=? nat_of_ascii c)%nat && (nat_of_ascii c <=? 90)%nat.

Definition is_digit (c : ascii) : bool :=
  (48 <=? nat_of_ascii c)%nat && (nat_of_ascii c <=? 57)%nat.

(** White space of [str.strip()] in the ASCII range: TAB, LF, VT, FF, CR,
    the separators FS, GS, RS, US, and the blank. *)
Definition is_space (c : ascii) : bool :=
  let n := nat_of_ascii c in
  ((9 <=? n)%nat && (n <=? 13)%nat) || ((28 <=? n)%nat && (n <=? 32)%nat).

Definition lower_char (c : ascii) : ascii :=
  if is_upper c then ascii_of_nat (nat_of_ascii c + 32) else c.

(** [str.lower()] *)
Fixpoint lower (s : string) : string :=
  match s with
  | EmptyString => EmptyString
  | String c s' => String (lower_char c) (lower s')
  end.

Fixpoint lstrip (s : string) : string :=
  match s with
  | EmptyString => EmptyString
  | String c s' => if is_space c then lstrip s' else s
  end.

Fixpoint rstrip (s : string) : string :=
  match s with
  | EmptyString => EmptyString
  | String c s' =>
      match rstrip s' with
      | EmptyString => if is_space c then EmptyString else String c EmptyString
      | r => String c r
      end
  end.

(** [str.strip()] *)
Definition strip (s : string) : string := rstrip (lstrip s).

(** Truth value of an object ([bool(v)], as tested by [not v]). *)
Definition truthy (v : json) : bool :=
  match v with
  | JNull => false
  | JBool b => b
  | JInt n => negb (n =? 0)%Z
  | JFloat (S754_zero _) => false
  | JFloat _ => true
  | JStr s => negb (String.eqb s "")
  | JList l => match l with [] => false | _ => true end
  | JDict d => negb (bool_decide (d = ∅))
  end.

Definition isinstance_str (v : json) : bool :=
  match v with JStr _ => true | _ => false end.

Definition isinstance_dict (v : json) : bool :=
  match v with JDict _ => true | _ => false end.

(** The characters of a [str] object; the empty string for any other
    object (only used behind an [isinstance_str] test). *)
Definition str_of (v : json) : string :=
  match v with JStr s => s | _ => "" end.

(** [d[k]]: the value under [k]; [KeyError] when there is none. *)
Definition getitem (d : gmap string json) (k : string) : result json :=
  match d !! k with
  | Some v => Ok v
  | None => Raise KeyError
  end.

(** [d.get(k)]: the value under [k], or [None]. *)
Definition dict_get (d : gmap string json) (k : string) : json :=
  default JNull (d !! k).

(** *** [float(x)]

    [float] of a string follows CPython's [PyFloat_FromString]: underscores
    are checked (each one between two digits) and removed, surrounding white
    space is dropped, and what is left must be, in full, either a decimal
    literal [[sign] (digits [. [digits]] | . digits) [(e|E) [sign] digits]]
    or one of [inf], [infinity], [nan] with an optional sign, in any letter
    case.  A literal too large for a double gives an infinity, not an error.
    White space is here what C's [isspace] says: TAB, LF, VT, FF, CR and
    the blank (the separators FS to US stay in the way). *)

Definition is_c_space (c : ascii) : bool :=
  let n := nat_of_ascii c in
  ((9 <=? n)%nat && (n <=? 13)%nat) || (n =? 32)%nat.

Fixpoint drop_leading_space (s : list ascii) : list ascii :=
  match s with
  | [] => []
  | c :: s' => if is_c_space c then drop_leading_space s' else s
  end.

Definition drop_surrounding_space (s : list ascii) : list ascii :=
  rev (drop_leading_space (rev (drop_leading_space s))).

Fixpoint underscores_ok (prev : ascii) (s : list ascii) : bool :=
  match s with
  | [] => negb (Ascii.eqb prev "_")
  | c :: s' =>
      if Ascii.eqb c "_" then is_digit prev && underscores_ok c s'
      else (negb (Ascii.eqb prev "_") || is_digit c) && underscores_ok c s'
  end.

Definition remove_underscores (s : list ascii) : list ascii :=
  List.filter (fun c => negb (Ascii.eqb c "_")) s.

Definition skip_sign (s : list ascii) : list ascii :=
  match s with
  | c :: s' => if Ascii.eqb c "+" || Ascii.eqb c "-" then s' else s
  | [] => []
  end.

(** Number of leading digits, and what follows them. *)
Fixpoint span_digits (s : list ascii) : nat * list ascii :=
  match s with
  | c :: s' =>
      if is_digit c then let '(n, r) := span_digits s' in (S n, r)
      else (O, s)
  | [] => (O, [])
  end.

Definition is_exp_mark (c : ascii) : bool := Ascii.eqb c "e" || Ascii.eqb c "E".

Definition decimal_literal (s : list ascii) : bool :=
  let '(n1, r1) := span_digits (skip_sign s) in
  let '(n2, r2) :=
    match r1 with
    | c :: r => if Ascii.eqb c "." then span_digits r else (O, r1)
    | [] => (O, r1)
    end in
  (0 <? n1 + n2)%nat &&
  match r2 with
  | [] => true
  | c :: r =>
      is_exp_mark c &&
      let '(n3, r3) := span_digits (skip_sign r) in
      (0 <? n3)%nat && match r3 with [] => true | _ => false end
  end.

Definition inf_or_nan (s : list ascii) : bool :=
  let w := lower (string_of_list_ascii (skip_sign s)) in
  String.eqb w "inf" || String.eqb w "infinity" || String.eqb w "nan".

Definition float_literal (s : string) : bool :=
  let cs := list_ascii_of_string s in
  underscores_ok "000" cs &&
  let t := drop_surrounding_space (remove_underscores cs) in
  decimal_literal t || inf_or_nan t.

(** [float] of an [int] raises [OverflowError] when the integer rounds (to
    nearest, ties to even) to [2^1024] or beyond, that is from
    [2^1024 - 2^970] on. *)
Definition int_fits_double (n : Z) : bool :=
  (Z.abs n <? 2 ^ 1024 - 2 ^ 970)%Z.

(** Outcome of [float(v)]; the number itself is not used by the service. *)
Definition float (v : json) : result unit :=
  match v with
  | JBool _ => Ok tt
  | JInt n => if int_fits_double n then Ok tt else Raise OverflowError
  | JFloat _ => Ok tt
  | JStr s => if float_literal s then Ok tt else Raise ValueError
  | JNull | JList _ | JDict _ => Raise TypeError
  end.

End Py.

(** ** The allow-list and the validator *)

Definition ALLOWED_COMMANDS : gset string :=
  {[ "spawn_object"; "delete_object"; "translate_mesh"; "rotate_mesh" ]}.

(** [is_vector(value)]: [TypeError] and [ValueError] raised by [float] are
    caught and turned into [False]; any other exception propagates. *)
Definition is_vector (value : json) : result bool :=
  match value with
  | JDict d =>
      if negb (bool_decide (({[ "x"; "y"; "z" ]} : gset string) ⊆ dom d)) then Ok false
      else
        match (x ← Py.getitem d "x"; _ ← Py.float x;
               y ← Py.getitem d "y"; _ ← Py.float y;
               z ← Py.getitem d "z"; Py.float z) with
        | Ok _ => Ok true
        | Raise TypeError | Raise ValueError => Ok false
        | Raise e => Raise e
        end
  | _ => Ok false
  end.

(** [validate_payload(payload)].  The payload is a mutable object: the first
    component is the payload as the call leaves it, the second is what the
    call returns, [(valid, diagnostic)], or the exception it raises. *)
Definition validate_payload (payload : json)
  : json * result (bool * option string) :=
  match payload with
  | JDict d =>
      let command := Py.dict_get d "command" in
      if negb (Py.truthy command) || negb (Py.isinstance_str command) then
        (payload, Ok (false, Some "Missing or invalid 'command' field."))
      else
        let command_lower := Py.lower (Py.str_of command) in
        if negb (bool_decide (command_lower ∈ ALLOWED_COMMANDS)) then
          (payload,
           Ok (false, Some ("Command '" ++ Py.str_of command
                            ++ "' is not in the allowed list.")))
        else
          let d := <["command" := JStr command_lower]> d in
          let payload := JDict d in
          if String.eqb command_lower "spawn_object" then
            if negb (Py.truthy (Py.dict_get d "primitive_type")) then
              (payload, Ok (false, Some "spawn_object requires 'primitive_type'."))
            else (payload, Ok (true, None))
          else if String.eqb command_lower "delete_object" then
            if negb (Py.truthy (Py.dict_get d "object_name")) then
              (payload, Ok (false, Some "delete_object requires 'object_name'."))
            else (payload, Ok (true, None))
          else if String.eqb command_lower "translate_mesh" then
            match (a ← is_vector (Py.dict_get d "offset");
                   if a : bool then Ok true
                   else is_vector (Py.dict_get d "position")) with
            | Raise e => (payload, Raise e)
            | Ok ok =>
                if negb ok then
                  (payload,
                   Ok (false, Some "translate_mesh requires 'offset' or 'position' vector."))
                else (payload, Ok (true, None))
            end
          else if String.eqb command_lower "rotate_mesh" then
            match is_vector (Py.dict_get d "rotation") with
            | Raise e => (payload, Raise e)
            | Ok ok =>
                if negb ok then
                  (payload, Ok (false, Some "rotate_mesh requires 'rotation' vector."))
                else (payload, Ok (true, None))
            end
          else (payload, Ok (true, None))
  | _ => (payload, Ok (false, Some "Response must be a JSON object."))
  end.

(** ** The object store

    The conversation is a Python list of turn dictionaries, both mutable and
    passed by reference.  A [store] maps locations to the list and
    dictionary objects alive; what a turn holds under its keys ([role],
    [content], [images]) is never written by the service and is kept by
    value. *)

Definition loc := positive.

Abbreviation turn := (gmap string json).

Inductive cell :=
  | CList (items : list loc)
  | CDict (fields : gmap string json).

Abbreviation store := (gmap loc cell).

Definition alloc (h : store) (c : cell) : loc * store :=
  let l := fresh (dom h) in (l, <[l := c]> h).

Definition read_turn (h : store) (l : loc) : option turn :=
  match h !! l with
  | Some (CDict d) => Some d
  | _ => None
  end.

(** The conversation held by the list object at [m], read through the store. *)
Definition read_messages (h : store) (m : loc)
  : option (list turn) :=
  match h !! m with
  | Some (CList items) => mapM (read_turn h) items
  | _ => None
  end.

(** [messages.extend([t1, t2])]: the two dictionaries are new objects, the
    list object at [m] is updated in place. *)
Definition extend2 (h : store) (m : loc) (t1 t2 : turn)
  : option (store) :=
  match h !! m with
  | Some (CList items) =>
      let '(l1, h1) := alloc h (CDict t1) in
      let '(l2, h2) := alloc h1 (CDict t2) in
      Some (<[m := CList (items ++ [l1; l2])]> h2)
  | _ => None
  end.

(** [copy.deepcopy] of the elements of a list of turns.  [memo] maps an
    object already copied to its copy, so that a turn referenced twice is
    copied once. *)
Fixpoint deepcopy_items (h : store) (memo : gmap loc loc) (items : list loc)
  : option (store * gmap loc loc * list loc) :=
  match items with
  | [] => Some (h, memo, [])
  | l :: items' =>
      match memo !! l with
      | Some l' =>
          '(h', memo', out) ← deepcopy_items h memo items';
          Some (h', memo', l' :: out)
      | None =>
          d ← read_turn h l;
          let '(l', h1) := alloc h (CDict d) in
          '(h', memo', out) ← deepcopy_items h1 (<[l := l']> memo) items';
          Some (h', memo', l' :: out)
      end
  end.

(** [deepcopy(base_messages)]: a new list object, filled with copies. *)
Definition deepcopy (h : store) (base : loc) : option (loc * store) :=
  match h !! base with
  | Some (CList items) =>
      let '(m, h0) := alloc h (CList []) in
      '(h', _, out) ← deepcopy_items h0 (<[base := m]> ∅) items;
      Some (m, <[m := CList out]> h')
  | _ => None
  end.

(** The list object at [m] and the turns it holds were all created after
    the store [h0] was taken: nothing of [h0] is reachable from it. *)
Definition private_list (h0 h : store) (m : loc) : Prop :=
  (m ∉ dom h0)
  /\ exists items, h !! m = Some (CList items)
                   /\ Forall (fun l => l ∉ dom h0) items.

(** ** The retry orchestrator *)

(** What one completion call comes to: [future.result] timed out
    ([FuturesTimeoutError]); submitting or running the call raised another
    exception, printed as [exc]; or a response arrived, whose
    [response["message"]["content"]] is [content]. *)
Inductive chat_outcome :=
  | ChatTimeout
  | ChatFailed (exc : string)
  | ChatResponse (content : string).

(** What [json.loads] comes to: the value read, a [json.JSONDecodeError]
    printed as [msg], or an exception of another class. *)
Inductive loads_outcome :=
  | Parsed (v : json)
  | JSONDecodeError (msg : string)
  | LoadsRaised (e : exn).

(** What [request_with_validation] returns:
    [(payload, raw_output, success, error_message)]. *)
Definition ret : Type := option json * string * bool * option string.

Inductive control :=
  | Continue
  | Break
  | Return (r : ret)
  | Raised (e : exn).

(** One completion call: the conversation submitted and what came back. *)
Abbreviation call := (list turn * chat_outcome)%type.

Record run_state := RunState {
  heap : store;
  last_output : string;
  error_message : option string;
  calls : list call
}.

Record run := Run {
  outcome : result ret;
  final_heap : store;
  messages_loc : loc;
  completion_calls : list call
}.

Definition assistant_turn (content : string) : turn :=
  {[ "role" := JStr "assistant"; "content" := JStr content ]}.

Definition user_turn (content : string) : turn :=
  {[ "role" := JStr "user"; "content" := JStr content ]}.

Definition unknown_snippet : string :=
  "{" ++ Py.dq ++ "command" ++ Py.dq ++ ":" ++ Py.dq ++ "unknown" ++ Py.dq ++ ","
      ++ Py.dq ++ "reason" ++ Py.dq ++ ":" ++ Py.dq ++ "need clarification" ++ Py.dq ++ "}".

Definition parse_correction (exc : string) : string :=
  "Your response could not be parsed as JSON (" ++ exc ++ "). "
  ++ "Reply again with JSON only, no code fences or commentary, using one of the allowed commands. "
  ++ "Do not include ellipses or placeholder values—every field must contain an explicit value. "
  ++ "If you cannot resolve the direction from the context, respond with "
  ++ unknown_snippet ++ ".".

(** [f"{validation_error}"]: the text of the diagnostic, [None] printed as
    such. *)
Definition fmt_opt (o : option string) : string := default "None" o.

Definition validation_correction (validation_error : option string) : string :=
  fmt_opt validation_error
  ++ " Use one of the allowed command names exactly as listed "
  ++ "and include the required fields. Respond with JSON only and avoid ellipses or placeholder tokens. "
  ++ "If the context is insufficient, respond with " ++ unknown_snippet ++ ".".

(** [e or d] on an optional string. *)
Definition or_else (e : option string) (d : string) : string :=
  match e with
  | Some s => if String.eqb s "" then d else s
  | None => d
  end.

Section Orchestrator.

(** The completion client: [executor.submit(ollama.chat, ...)] followed by
    [future.result(timeout=30.0)], as a function of the attempt number and
    of the conversation submitted. *)
Variable chat : nat -> list turn -> chat_outcome.

(** [json.loads]. *)
Variable json_loads : string -> loads_outcome.

(** The body of the [for] loop, for the working list at [messages]. *)
Definition attempt_body (messages : loc) (attempt : nat) (st : run_state)
  : option (control * run_state) :=
  conv ← read_messages (heap st) messages;
  let response := chat attempt conv in
  let log := (calls st ++ [(conv, response)])%list in
  match response with
  | ChatTimeout =>
      Some (Break,
            RunState (heap st) (last_output st)
                     (Some "Ollama request failed: timeout") log)
  | ChatFailed exc =>
      Some (Break,
            RunState (heap st) (last_output st)
                     (Some ("Ollama request failed: " ++ exc)) log)
  | ChatResponse content =>
      let llm_output := Py.strip content in
      match json_loads llm_output with
      | JSONDecodeError exc =>
          h' ← extend2 (heap st) messages
                 (assistant_turn llm_output) (user_turn (parse_correction exc));
          Some (Continue,
                RunState h' llm_output
                         (Some ("Model response was not valid JSON: " ++ exc)) log)
      | LoadsRaised e =>
          Some (Raised e, RunState (heap st) llm_output (error_message st) log)
      | Parsed payload =>
          match validate_payload payload with
          | (_, Raise e) =>
              Some (Raised e, RunState (heap st) llm_output (error_message st) log)
          | (payload, Ok (valid, validation_error)) =>
              if valid then
                Some (Return (Some payload, llm_output, true, None),
                      RunState (heap st) llm_output (error_message st) log)
              else
                h' ← extend2 (heap st) messages
                       (assistant_turn llm_output)
                       (user_turn (validation_correction validation_error));
                Some (Continue,
                      RunState h' llm_output
                               (Some ("Invalid command payload: "
                                      ++ fmt_opt validation_error)) log)
          end
      end
  end.

(** [for attempt in range(...)]: the attempts left, in order.  The result
    is [Continue] when the loop ran to its end. *)
Fixpoint for_attempts (messages : loc) (attempts : list nat) (st : run_state)
  : option (control * run_state) :=
  match attempts with
  | [] => Some (Continue, st)
  | attempt :: rest =>
      match attempt_body messages attempt st with
      | Some (Continue, st') => for_attempts messages rest st'
      | r => r
      end
  end.

(** What the function returns once the loop is left: the [return] inside
    the loop, an exception, or the failure tuple built after the loop. *)
Definition conclude (c : control) (last_output : string)
    (error_message : option string) : result ret :=
  match c with
  | Return r => Ok r
  | Raised e => Raise e
  | Continue | Break =>
      Ok (None, last_output, false,
          Some (or_else error_message "Model response was not valid after retries"))
  end.

Definition request_with_validation (h : store) (base_messages : loc)
    (max_attempts : Z) : option run :=
  '(messages, h0) ← deepcopy h base_messages;
  '(c, st) ← for_attempts messages (seq 0 (Z.to_nat max_attempts))
               (RunState h0 "" None []);
  Some (Run (conclude c (last_output st) (error_message st))
            (heap st) messages (calls st)).

End Orchestrator.

(** ** Attempts as a trace

    The same loop, seen from outside the store: each completion call gets a
    [verdict], and [attempts_trace a n v log c v'] says that [n] iterations
    starting at attempt [a] from the conversation, last output and error
    message [v] make the calls [log], leave the loop by [c] and end in [v']. *)

Inductive verdict :=
  | Fatal (err : string)
  | Retry (raw err correction : string)
  | Accept (payload : json) (raw : string)
  | Crash (raw : string) (e : exn).

Definition view : Type := list turn * string * option string.

Section Trace.

Variable chat : nat -> list turn -> chat_outcome.
Variable json_loads : string -> loads_outcome.

Definition judge (response : chat_outcome) : verdict :=
  match response with
  | ChatTimeout => Fatal "Ollama request failed: timeout"
  | ChatFailed exc => Fatal ("Ollama request failed: " ++ exc)
  | ChatResponse content =>
      let raw := Py.strip content in
      match json_loads raw with
      | JSONDecodeError exc =>
          Retry raw ("Model response was not valid JSON: " ++ exc)
                (parse_correction exc)
      | LoadsRaised e => Crash raw e
      | Parsed payload =>
          match validate_payload payload with
          | (_, Raise e) => Crash raw e
          | (payload', Ok (true, _)) => Accept payload' raw
          | (_, Ok (false, validation_error)) =>
              Retry raw ("Invalid command payload: " ++ fmt_opt validation_error)
                    (validation_correction validation_error)
          end
      end
  end.

(** The attempt's text parses as JSON and passes the validator, which
    leaves the payload as [payload]. *)
Definition accepted (response : chat_outcome) (payload : json) (raw : string) : Prop :=
  exists content parsed diagnostic,
    response = ChatResponse content /\ raw = Py.strip content
    /\ json_loads raw = Parsed parsed
    /\ validate_payload parsed = (payload, Ok (true, diagnostic)).

(** The attempt's text fails to parse or to validate: [err] is the error
    message kept by the loop, [correction] the text of the corrective user
    turn. *)
Definition rejected (response : chat_outcome) (raw err correction : string) : Prop :=
  exists content,
    response = ChatResponse content /\ raw = Py.strip content
    /\ ((exists exc,
           json_loads raw = JSONDecodeError exc
           /\ err = "Model response was not valid JSON: " ++ exc
           /\ correction = parse_correction exc)
        \/ (exists parsed payload diagnostic,
              json_loads raw = Parsed parsed
              /\ validate_payload parsed = (payload, Ok (false, diagnostic))
              /\ err = "Invalid command payload: " ++ fmt_opt diagnostic
              /\ correction = validation_correction diagnostic)).

Inductive attempts_trace
  : nat -> nat -> view -> list call -> control -> view -> Prop :=
  | trace_exhausted a v :
      attempts_trace a 0 v [] Continue v
  | trace_fatal a n conv lo em err :
      judge (chat a conv) = Fatal err ->
      attempts_trace a (S n) (conv, lo, em)
        [(conv, chat a conv)] Break (conv, lo, Some err)
  | trace_retry a n conv lo em raw err corr log c v' :
      judge (chat a conv) = Retry raw err corr ->
      attempts_trace (S a) n
        ((conv ++ [assistant_turn raw; user_turn corr])%list, raw, Some err)
        log c v' ->
      attempts_trace a (S n) (conv, lo, em) ((conv, chat a conv) :: log) c v'
  | trace_accept a n conv lo em payload raw :
      judge (chat a conv) = Accept payload raw ->
      attempts_trace a (S n) (conv, lo, em)
        [(conv, chat a conv)] (Return (Some payload, raw, true, None))
        (conv, raw, em)
  | trace_crash a n conv lo em raw e :
      judge (chat a conv) = Crash raw e ->
      attempts_trace a (S n) (conv, lo, em)
        [(conv, chat a conv)] (Raised e) (conv, raw, em).

End Trace.

(** ** The vector checker as the specification words it

    "Acceptance requires all of x, y, z present and parseable as finite
    numbers (numeric-looking strings are accepted); no NaN/∞." *)

Definition spec_finite_number (v : json) : bool :=
  match v with
  | JBool _ | JInt _ => true
  | JFloat (S754_zero _) | JFloat (S754_finite _ _ _) => true
  | JFloat S754_nan | JFloat (S754_infinity _) => false
  | JStr s =>
      Py.float_literal s
      && negb (Py.inf_or_nan
                 (Py.drop_surrounding_space (list_ascii_of_string s)))
  | JNull | JList _ | JDict _ => false
  end.

Definition spec_is_vector (v : json) : bool :=
  match v with
  | JDict d =>
      bool_decide (({[ "x"; "y"; "z" ]} : gset string) ⊆ dom d)
      && spec_finite_number (Py.dict_get d "x")
      && spec_finite_number (Py.dict_get d "y")
      && spec_finite_number (Py.dict_get d "z")
  | _ => false
  end.

(** ** Sample payloads, transcripts and conversations *)

Definition vector3 (x y z : json) : json :=
  JDict {[ "x" := x; "y" := y; "z" := z ]}.

Definition dict_of (kvs : list (string * json)) : json := JDict (list_to_map kvs).

Definition spawn_mixed_case : json :=
  dict_of [("command", JStr "Spawn_Object"); ("primitive_type", JStr "Cube")].

Definition spawn_normalized : json :=
  dict_of [("command", JStr "spawn_object"); ("primitive_type", JStr "Cube")].

Definition translate_up : json :=
  dict_of [("command", JStr "translate_mesh");
           ("offset", vector3 (JInt 0) (JInt 1) (JInt 0))].

Definition unknown_payload : json :=
  dict_of [("command", JStr "unknown"); ("reason", JStr "need clarification")].

(** A [rotate_mesh] payload whose [x] is the integer [10^400], read from a
    JSON text where it is written out as a 1 followed by 400 zeros. *)
Definition huge_rotation : json :=
  dict_of [("command", JStr "rotate_mesh");
           ("rotation", vector3 (JInt (10 ^ 400)) (JInt 0) (JInt 0))].

Definition nan_vector : json := vector3 (JFloat S754_nan) (JInt 0) (JInt 0).

Definition translate_text : string :=
  "{" ++ Py.dq ++ "command" ++ Py.dq ++ ":" ++ Py.dq ++ "translate_mesh" ++ Py.dq ++ ","
      ++ Py.dq ++ "offset" ++ Py.dq ++ ":{" ++ Py.dq ++ "x" ++ Py.dq ++ ":0,"
      ++ Py.dq ++ "y" ++ Py.dq ++ ":1," ++ Py.dq ++ "z" ++ Py.dq ++ ":0}}".

(** A store with one conversation: the list at [1] holds the turn at [2]. *)
Definition sample_store : store :=
  {[ 1%positive := CList [2%positive];
     2%positive := CDict (user_turn "move the cube up one meter") ]}.

Definition sample_conversation : list turn :=
  [user_turn "move the cube up one meter"].

(** [json.loads] on the transcripts used below: the two JSON texts parse to
    the payloads shown; anything else is taken to be prose, which
    [json.loads] refuses at its first character. *)
Definition sample_loads (s : string) : loads_outcome :=
  if String.eqb s translate_text then Parsed translate_up
  else if String.eqb s unknown_snippet then Parsed unknown_payload
  else JSONDecodeError "Expecting value: line 1 column 1 (char 0)".

(** A model that first answers in prose, then with the JSON command. *)
Definition chat_prose_then_json (attempt : nat) (_ : list turn)
  : chat_outcome :=
  match attempt with
  | 0 => ChatResponse " Sure! I will move the cube up. "
  | _ => ChatResponse translate_text
  end.

(** A model that keeps answering in prose. *)
Definition chat_prose (attempt : nat) (_ : list turn) : chat_outcome :=
  match attempt with
  | 0 => ChatResponse "Sure! I will move the cube up."
  | _ => ChatResponse "Moving the cube up by one meter."
  end.

(** A model that asks for clarification, as the prompt tells it to. *)
Definition chat_unknown (_ : nat) (_ : list turn) : chat_outcome :=
  ChatResponse unknown_snippet.

(** A backend that does not answer in time. *)
Definition chat_timeout (_ : nat) (_ : list turn) : chat_outcome :=
  ChatTimeout.

(** ** The request handler

    [process_input], the function behind [POST /process].  What it gets
    from outside is taken as given: the parsed request body [data], and the
    outcome of the two library calls it makes before building the prompt. *)

Inductive handler_exn :=
  | AttributeError
  | UnboundLocalError
  | Uncaught (e : exn)
  | External (what : string).

Inductive handler_result (A : Type) :=
  | Returns (a : A)
  | Throws (e : handler_exn).
Arguments Returns {A} a.
Arguments Throws {A} e.

(** The line feed. *)
Definition nl : string := String (ascii_of_nat 10) EmptyString.

Definition default_text : string :=
  String.concat nl
    [ "";
      "You are a Unity scene editing assistant. Use the provided screenshot context and transcribed voice command to return a single JSON object that matches this schema. OUTPUT A SINGLE JSON ONLY. NOTHING ELSE!!!";
      "";
      "Schema (omit any fields that are not needed):";
      "{";
      "  " ++ Py.dq ++ "command" ++ Py.dq ++ ": string,                   // required; use lower_snake_case";
      "  " ++ Py.dq ++ "object_name" ++ Py.dq ++ ": string,               ";
      "  " ++ Py.dq ++ "offset" ++ Py.dq ++ ": {" ++ Py.dq ++ "x" ++ Py.dq ++ ": float, " ++ Py.dq ++ "y" ++ Py.dq ++ ": float, " ++ Py.dq ++ "z" ++ Py.dq ++ ": float},";
      "  " ++ Py.dq ++ "position" ++ Py.dq ++ ": {" ++ Py.dq ++ "x" ++ Py.dq ++ ": float, " ++ Py.dq ++ "y" ++ Py.dq ++ ": float, " ++ Py.dq ++ "z" ++ Py.dq ++ ": float},";
      "  " ++ Py.dq ++ "rotation" ++ Py.dq ++ ": {" ++ Py.dq ++ "x" ++ Py.dq ++ ": float, " ++ Py.dq ++ "y" ++ Py.dq ++ ": float, " ++ Py.dq ++ "z" ++ Py.dq ++ ": float},";
      "  " ++ Py.dq ++ "primitive_type" ++ Py.dq ++ ": string,            // Cube | Sphere | Cylinder | Capsule | Plane";
      "}";
      "";
      "Valid command values (exactly one of these):";
      "- " ++ Py.dq ++ "spawn_object" ++ Py.dq ++ "        (requires primitive_type)";
      "- " ++ Py.dq ++ "delete_object" ++ Py.dq ++ "       (requires object_name)";
      "- " ++ Py.dq ++ "translate_mesh" ++ Py.dq ++ "      (requires offset OR position)";
      "- " ++ Py.dq ++ "rotate_mesh" ++ Py.dq ++ "         (requires rotation)";
      "";
      "If the request cannot be mapped to one of the commands above, respond instead with:";
      "{" ++ Py.dq ++ "command" ++ Py.dq ++ ":" ++ Py.dq ++ "unknown" ++ Py.dq ++ "," ++ Py.dq ++ "reason" ++ Py.dq ++ ":" ++ Py.dq ++ "<brief explanation>" ++ Py.dq ++ "}   // reason is short plain text";
      "";
      "Rules:";
      "- Do not invent command names or additional fields.";
      "- Command names must match the spellings above exactly. Do not output variations such as " ++ Py.dq ++ "translate_messh" ++ Py.dq ++ " or " ++ Py.dq ++ "rotate_mash" ++ Py.dq ++ ".";
      "- Keep numbers in meters (convert centimetres to metres: 1 cm = 0.01).";
      "- Final answer must be valid JSON, nothing else!!!";
      "";
      "";
      "Examples:";
      "{" ++ Py.dq ++ "command" ++ Py.dq ++ ":" ++ Py.dq ++ "translate_mesh" ++ Py.dq ++ "," ++ Py.dq ++ "object_name" ++ Py.dq ++ ":" ++ Py.dq ++ "Cube_A" ++ Py.dq ++ "," ++ Py.dq ++ "position" ++ Py.dq ++ ":{" ++ Py.dq ++ "x" ++ Py.dq ++ ":1.5," ++ Py.dq ++ "y" ++ Py.dq ++ ":0.0," ++ Py.dq ++ "z" ++ Py.dq ++ ":-2.0}}";
      "{" ++ Py.dq ++ "command" ++ Py.dq ++ ":" ++ Py.dq ++ "unknown" ++ Py.dq ++ "," ++ Py.dq ++ "reason" ++ Py.dq ++ ":" ++ Py.dq ++ "No actionable instruction detected" ++ Py.dq ++ "}";
      "" ].

(** Reading a local variable: [UnboundLocalError] as long as nothing was
    assigned to it. *)
Definition load_local (v : option string) : handler_result string :=
  match v with
  | Some s => Returns s
  | None => Throws UnboundLocalError
  end.

(** [None] of an optional string, for the response. *)
Definition opt_str (o : option string) : json :=
  match o with
  | Some s => JStr s
  | None => JNull
  end.

Section Handler.

Variable chat : nat -> list turn -> chat_outcome.
Variable json_loads : string -> loads_outcome.

(** The [try ... finally] block: decoding the audio, writing it to the
    temporary file, transcribing it and removing the file, as a function of
    [audio_b64]; it yields the transcript or raises. *)
Variable speech_to_text : json -> handler_result string.

(** [json.dumps(context, indent=2)]. *)
Variable json_dumps : json -> handler_result string.

(** The result is what the function returns or raises, beside the
    completion calls made on the way.  [chat_history] is assigned in the
    body (twice, by [+=]) and not declared [global]: it is a local variable
    of the function, unbound on entry. *)
Definition process_input (h : store) (data : json)
  : option (handler_result json * list call) :=
  let chat_history : option string := None in
  match data with
  | JDict d =>
      let image_b64 := Py.dict_get d "image" in
      let audio_b64 := Py.dict_get d "audio" in
      let context := Py.dict_get d "context" in
      match speech_to_text audio_b64 with
      | Throws e => Some (Throws e, [])
      | Returns voice_command_text =>
          match (if Py.truthy context then
                   match json_dumps context with
                   | Returns context_json =>
                       Returns ("Context:" ++ nl ++ context_json ++ nl ++ nl)
                   | Throws e => Throws e
                   end
                 else Returns "") with
          | Throws e => Some (Throws e, [])
          | Returns context_block =>
              match load_local chat_history with
              | Throws e => Some (Throws e, [])
              | Returns history =>
                  let full_prompt :=
                    default_text ++ nl ++ nl ++ context_block ++ nl
                    ++ "User request:" ++ nl ++ voice_command_text ++ nl ++ nl
                    ++ "Chat History:" ++ history in
                  let chat_history :=
                    Some (history ++ "Question: " ++ voice_command_text ++ nl) in
                  let images :=
                    if Py.truthy image_b64 then JList [image_b64] else JNull in
                  let message : turn :=
                    {[ "role" := JStr "user"; "content" := JStr full_prompt;
                       "images" := images ]} in
                  let '(l, h1) := alloc h (CDict message) in
                  let '(messages, h2) := alloc h1 (CList [l]) in
                  let h3 :=
                    match images with
                    | JNull => <[l := CDict (delete "images" message)]> h2
                    | _ => h2
                    end in
                  r ← request_with_validation chat json_loads h3 messages 2;
                  match outcome r with
                  | Raise e => Some (Throws (Uncaught e), completion_calls r)
                  | Ok (command_payload, llm_output, success, error) =>
                      let chat_history :=
                        option_map (fun s => s ++ "Response: " ++ llm_output ++ nl)
                                   chat_history in
                      Some (Returns
                              (JDict {[ "success" := JBool success;
                                        "error" := opt_str error;
                                        "raw" := JStr llm_output;
                                        "transcript" := JStr voice_command_text;
                                        "command" := default JNull command_payload ]}),
                            completion_calls r)
                  end
              end
          end
      end
  | _ => Some (Throws AttributeError, [])
  end.

End Handler.

(** ** More sample transcripts and stores *)

(** The text of [huge_rotation]: the integer is written out in full. *)
Definition huge_rotation_text : string :=
  "{" ++ Py.dq ++ "command" ++ Py.dq ++ ":" ++ Py.dq ++ "rotate_mesh" ++ Py.dq ++ ","
      ++ Py.dq ++ "rotation" ++ Py.dq ++ ":{" ++ Py.dq ++ "x" ++ Py.dq ++ ":1"
      ++ string_of_list_ascii (replicate 400 "0"%char) ++ ","
      ++ Py.dq ++ "y" ++ Py.dq ++ ":0," ++ Py.dq ++ "z" ++ Py.dq ++ ":0}}".

(** [sample_loads], reading [huge_rotation_text] as well. *)
Definition sample_loads_wide (s : string) : loads_outcome :=
  if String.eqb s huge_rotation_text then Parsed huge_rotation else sample_loads s.

(** A model that answers with the huge rotation. *)
Definition chat_huge (_ : nat) (_ : list turn) : chat_outcome :=
  ChatResponse huge_rotation_text.

(** A model that answers in prose once; the second call times out. *)
Definition chat_prose_then_timeout (attempt : nat) (_ : list turn) : chat_outcome :=
  match attempt with
  | 0 => ChatResponse " Sure! I will move the cube up. "
  | _ => ChatTimeout
  end.

(** Two stores holding the same two-turn conversation: in the first the
    list at [1] refers twice to one turn object, in the second the list at
    [4] refers to two objects with the same content. *)
Definition shared_store : store :=
  {[ 1%positive := CList [2%positive; 2%positive];
     2%positive := CDict (user_turn "again") ]}.

Definition unshared_store : store :=
  {[ 4%positive := CList [5%positive; 6%positive];
     5%positive := CDict (user_turn "again");
     6%positive := CDict (user_turn "again") ]}.

(** A request body with audio only, a transcription that succeeds and a
    serializer that is never needed. *)
Definition sample_request : json := dict_of [("audio", JStr "UklGRg==")].

Definition sample_transcribe (_ : json) : handler_result string :=
  Returns "move the cube up one meter".

Definition sample_dumps (_ : json) : handler_result string := Returns "{}".

(** ** Reasoning about the store *)

Lemma read_turn_mono (h h' : store) (l : loc) (d : turn) :
  h ⊆ h' -> read_turn h l = Some d -> read_turn h' l = Some d.
Proof.
  unfold read_turn. intros Hsub Hl.
  destruct (h !! l) as [c|] eqn:E; [|discriminate].
  rewrite (lookup_weaken _ _ _ _ E Hsub). exact Hl.
Qed.

Lemma read_all_mono (h h' : store) (ls : list loc)
    (conv : list turn) :
  h ⊆ h' -> mapM (read_turn h) ls = Some conv -> mapM (read_turn h') ls = Some conv.
Proof.
  intros Hsub. rewrite !mapM_Some. intros HF.
  induction HF; constructor; eauto using read_turn_mono.
Qed.

Lemma alloc_spec (h : store) (c : cell) :
  ((alloc h c).1 ∉ dom h) /\ ((alloc h c).2 = <[(alloc h c).1 := c]> h)
  /\ (h ⊆ (alloc h c).2).
Proof.
  unfold alloc; simpl.
  pose proof (is_fresh (dom h)) as Hf.
  split; [exact Hf|]. split; [reflexivity|].
  apply insert_subseteq. by apply not_elem_of_dom.
Qed.

Lemma extend2_spec (h0 h : store) (m : loc)
    (conv : list turn) (t1 t2 : turn) :
  read_messages h m = Some conv -> h0 ⊆ h -> private_list h0 h m ->
  exists h', extend2 h m t1 t2 = Some h' /\ h0 ⊆ h'
             /\ private_list h0 h' m
             /\ read_messages h' m = Some (conv ++ [t1; t2])%list.
Proof.
  unfold read_messages, extend2. intros Hr Hsub (Hm & items0 & Hitems0 & Hpriv).
  destruct (h !! m) as [[items|]|] eqn:Em; try discriminate.
  injection Hitems0 as <-.
  unfold alloc.
  set (l1 := fresh (dom h)).
  set (h1 := <[l1 := CDict t1]> h).
  set (l2 := fresh (dom h1)).
  set (h2 := <[l2 := CDict t2]> h1).
  assert (Hl1 : h !! l1 = None) by (apply not_elem_of_dom, is_fresh).
  assert (Hl2 : h1 !! l2 = None) by (apply not_elem_of_dom, is_fresh).
  assert (Hm1 : l1 <> m) by congruence.
  assert (Hm2 : l2 <> m).
  { intros ->. subst h1. rewrite lookup_insert_ne in Hl2 by done. congruence. }
  assert (H12 : l1 <> l2).
  { intros E. subst h1. rewrite <- E, lookup_insert_eq in Hl2. discriminate. }
  assert (Hh1 : h ⊆ h1) by apply (insert_subseteq h l1 (CDict t1) Hl1).
  assert (Hh2 : h ⊆ h2).
  { etrans; [exact Hh1|]. apply (insert_subseteq h1 l2 (CDict t2) Hl2). }
  assert (Hnew : forall l c, h0 !! l = Some c -> l <> l1 /\ l <> l2 /\ l <> m).
  { intros l c Hl. pose proof (lookup_weaken _ _ _ _ Hl Hsub) as Hl'.
    split; [congruence|]. split.
    - intros ->. rewrite (lookup_weaken _ _ _ _ Hl' Hh1) in Hl2. discriminate.
    - intros ->. apply Hm, elem_of_dom; eauto. }
  eexists. split; [reflexivity|]. split; [|split].
  - apply map_subseteq_spec. intros l c Hl.
    destruct (Hnew _ _ Hl) as (_ & _ & ?).
    rewrite lookup_insert_ne by done.
    eapply lookup_weaken; [|exact Hh2]. eapply lookup_weaken; eauto.
  - split; [done|]. eexists. split; [apply lookup_insert_eq|].
    apply Forall_app. split; [done|].
    repeat constructor; intros [c Hc]%elem_of_dom;
      destruct (Hnew _ _ Hc) as (? & ? & ?); done.
  - rewrite lookup_insert_eq.
    apply mapM_Some. apply mapM_Some in Hr.
    apply Forall2_app.
    + eapply Forall2_impl; [exact Hr|]. intros l d Hd. simpl in Hd.
      unfold read_turn in *.
      destruct (h !! l) as [[|d']|] eqn:El; try discriminate.
      assert (l <> m) by congruence.
      rewrite lookup_insert_ne by done.
      by rewrite (lookup_weaken _ _ _ _ El Hh2).
    + repeat constructor; unfold read_turn.
      * rewrite lookup_insert_ne by done. subst h2.
        rewrite lookup_insert_ne by done. subst h1.
        by rewrite lookup_insert_eq.
      * rewrite lookup_insert_ne by done. subst h2.
        by rewrite lookup_insert_eq.
Qed.

Lemma deepcopy_items_spec (h_orig : store) (items : list loc) :
  forall (h : store) (memo : gmap loc loc) (conv : list turn),
    h_orig ⊆ h ->
    (forall l l', memo !! l = Some l' ->
       (l' ∉ dom h_orig) /\ is_Some (h !! l') /\ read_turn h l' = read_turn h_orig l) ->
    mapM (read_turn h_orig) items = Some conv ->
    exists h' memo' out,
      deepcopy_items h memo items = Some (h', memo', out)
      /\ h ⊆ h' /\ mapM (read_turn h') out = Some conv
      /\ Forall (fun l' => l' ∉ dom h_orig) out.
Proof.
  induction items as [|l items IH]; intros h memo conv Hsub Hmemo Hconv.
  - simpl in *. injection Hconv as <-. by exists h, memo, [].
  - apply mapM_Some in Hconv. inversion Hconv as [|? d ? conv' Hd Hrest]; subst.
    apply mapM_Some in Hrest. simpl.
    destruct (memo !! l) as [l'|] eqn:El.
    + destruct (Hmemo _ _ El) as (Hfresh & Hsome & Hread).
      destruct (IH h memo conv' Hsub Hmemo Hrest) as (h' & memo' & out & -> & Hh & Hout & Hf).
      exists h', memo', (l' :: out).
      split; [done|]. split; [done|]. split; [|by constructor].
      apply mapM_Some. constructor; [|by apply mapM_Some].
      eapply read_turn_mono; [exact Hh|]. congruence.
    + rewrite (read_turn_mono _ _ _ _ Hsub Hd). simpl.
      destruct (alloc_spec h (CDict d)) as (Hfr & _ & Hsub1).
      unfold alloc in *. simpl in Hfr, Hsub1.
      set (l' := fresh (dom h)) in *.
      assert (Hl' : l' ∉ dom h_orig).
      { intros Hin. apply Hfr. eapply subseteq_dom; eauto. }
      destruct (IH (<[l' := CDict d]> h) (<[l := l']> memo) conv') as
        (h' & memo' & out & Hdc & Hh & Hout & Hf); [by etrans| |done|].
      { intros k k' Hk. destruct (decide (l = k)) as [->|Hne].
        - rewrite lookup_insert_eq in Hk. injection Hk as <-.
          split; [done|]. split; [rewrite lookup_insert_eq; eauto|].
          rewrite Hd. unfold read_turn. by rewrite lookup_insert_eq.
        - rewrite lookup_insert_ne in Hk by done.
          destruct (Hmemo _ _ Hk) as (? & [c Hc] & Hread).
          assert (k' <> l') by (intros ->; apply Hfr, elem_of_dom; eauto).
          unfold read_turn in *. rewrite lookup_insert_ne by done. eauto. }
      exists h', memo', (l' :: out). rewrite Hdc.
      split; [done|]. split; [by etrans|]. split; [|by constructor].
      apply mapM_Some. constructor; [|by apply mapM_Some].
      eapply read_turn_mono; [exact Hh|].
      unfold read_turn. by rewrite lookup_insert_eq.
Qed.

Lemma deepcopy_spec (h : store) (base : loc)
    (conv : list turn) :
  read_messages h base = Some conv ->
  exists m h', deepcopy h base = Some (m, h') /\ h ⊆ h'
               /\ private_list h h' m
               /\ read_messages h' m = Some conv.
Proof.
  unfold read_messages, deepcopy. intros Hr.
  destruct (h !! base) as [[items|]|] eqn:Eb; try discriminate.
  destruct (alloc_spec h (CList [])) as (Hfr & _ & Hsub0).
  unfold alloc in *. simpl in Hfr, Hsub0 |- *.
  set (m := fresh (dom h)) in *.
  destruct (deepcopy_items_spec h items (<[m := CList []]> h) (<[base := m]> ∅) conv)
    as (h' & memo' & out & -> & Hh & Hout & Hf); [done| |done|].
  { intros k k' Hk. destruct (decide (base = k)) as [->|Hne].
    - rewrite lookup_insert_eq in Hk. injection Hk as <-.
      split; [done|]. unfold read_turn. rewrite lookup_insert_eq, Eb. eauto.
    - rewrite lookup_insert_ne, lookup_empty in Hk by done. discriminate. }
  simpl. exists m, (<[m := CList out]> h').
  assert (Hm' : h' !! m = Some (CList [])).
  { eapply lookup_weaken; [|exact Hh]. by rewrite lookup_insert_eq. }
  split; [done|]. split; [|split].
  - apply map_subseteq_spec. intros l c Hl.
    assert (l <> m) by (intros ->; apply Hfr, elem_of_dom; eauto).
    rewrite lookup_insert_ne by done.
    eapply lookup_weaken; [|exact Hh]. by rewrite lookup_insert_ne.
  - split; [done|]. exists out. by rewrite lookup_insert_eq.
  - rewrite lookup_insert_eq. apply mapM_Some. apply mapM_Some in Hout.
    eapply Forall2_impl; [exact Hout|]. intros l d Hd. simpl in Hd.
    unfold read_turn in *.
    destruct (h' !! l) as [[|d']|] eqn:El; try discriminate.
    assert (l <> m) by congruence.
    by rewrite lookup_insert_ne, El.
Qed.

(** ** The loop and its trace *)

Section Adequacy.

Variable chat : nat -> list turn -> chat_outcome.
Variable json_loads : string -> loads_outcome.

Lemma for_attempts_trace (h0 : store) (m : loc) (n : nat) :
  forall (a : nat) (st : run_state) (conv : list turn),
    read_messages (heap st) m = Some conv -> h0 ⊆ heap st ->
    private_list h0 (heap st) m ->
    exists c st' log conv',
      for_attempts chat json_loads m (seq a n) st = Some (c, st')
      /\ attempts_trace chat json_loads a n
           (conv, last_output st, error_message st) log c
           (conv', last_output st', error_message st')
      /\ calls st' = (calls st ++ log)%list
      /\ h0 ⊆ heap st'
      /\ private_list h0 (heap st') m
      /\ read_messages (heap st') m = Some conv'.
Proof.
  induction n as [|n IH]; intros a st conv Hr Hsub Hm.
  - exists Continue, st, [], conv. simpl. rewrite app_nil_r.
    split_and!; try done. constructor.
  - simpl. unfold attempt_body. rewrite Hr. simpl.
    destruct (chat a conv) as [|exc|content] eqn:Ec.
    + do 4 eexists. split; [reflexivity|]. simpl.
      split; [|split_and!; try done].
      rewrite <- Ec. constructor. by rewrite Ec.
    + do 4 eexists. split; [reflexivity|]. simpl.
      split; [|split_and!; try done].
      rewrite <- Ec. constructor. by rewrite Ec.
    + destruct (json_loads (Py.strip content)) as [payload|exc|e] eqn:Ej.
      * destruct (validate_payload payload) as [payload' [[[|] ve]|e]] eqn:Ev.
        -- do 4 eexists. split; [reflexivity|]. simpl.
           split; [|split_and!; try done].
           rewrite <- Ec. constructor. rewrite Ec. simpl. by rewrite Ej, Ev.
        -- destruct (extend2_spec h0 (heap st) m conv
                       (assistant_turn (Py.strip content))
                       (user_turn (validation_correction ve)) Hr Hsub Hm)
             as (h' & -> & Hsub' & Hm' & Hr').
           simpl.
           destruct (IH (S a) (RunState h' (Py.strip content)
                           (Some ("Invalid command payload: " ++ fmt_opt ve))
                           (calls st ++ [(conv, ChatResponse content)])%list)
                        _ Hr' Hsub' Hm')
             as (c & st' & log & conv' & -> & Htr & Hcalls & Hsub'' & Hm'' & Hr'').
           simpl in *. exists c, st', ((conv, ChatResponse content) :: log), conv'.
           split; [by destruct c|]. split; [|split_and!; try done].
           ++ rewrite <- Ec. econstructor; [|exact Htr].
              rewrite Ec. simpl. by rewrite Ej, Ev.
           ++ by rewrite Hcalls, <- app_assoc.
        -- do 4 eexists. split; [reflexivity|]. simpl.
           split; [|split_and!; try done].
           rewrite <- Ec. constructor. rewrite Ec. simpl. by rewrite Ej, Ev.
      * destruct (extend2_spec h0 (heap st) m conv
                    (assistant_turn (Py.strip content))
                    (user_turn (parse_correction exc)) Hr Hsub Hm)
          as (h' & -> & Hsub' & Hm' & Hr').
        simpl.
        destruct (IH (S a) (RunState h' (Py.strip content)
                        (Some ("Model response was not valid JSON: " ++ exc))
                        (calls st ++ [(conv, ChatResponse content)])%list)
                     _ Hr' Hsub' Hm')
          as (c & st' & log & conv' & -> & Htr & Hcalls & Hsub'' & Hm'' & Hr'').
        simpl in *. exists c, st', ((conv, ChatResponse content) :: log), conv'.
        split; [by destruct c|]. split; [|split_and!; try done].
        -- rewrite <- Ec. econstructor; [|exact Htr].
           rewrite Ec. simpl. by rewrite Ej.
        -- by rewrite Hcalls, <- app_assoc.
      * do 4 eexists. split; [reflexivity|]. simpl.
        split; [|split_and!; try done].
        rewrite <- Ec. constructor. rewrite Ec. simpl. by rewrite Ej.
Qed.

Lemma run_trace (h : store) (base : loc) (max_attempts : Z)
    (conv : list turn) :
  read_messages h base = Some conv ->
  exists r c conv' lo em,
    request_with_validation chat json_loads h base max_attempts = Some r
    /\ attempts_trace chat json_loads 0 (Z.to_nat max_attempts)
         (conv, "", None) (completion_calls r) c (conv', lo, em)
    /\ outcome r = conclude c lo em
    /\ h ⊆ final_heap r
    /\ private_list h (final_heap r) (messages_loc r)
    /\ read_messages (final_heap r) (messages_loc r) = Some conv'.
Proof.
  intros Hr. unfold request_with_validation.
  destruct (deepcopy_spec h base conv Hr) as (m & h1 & -> & Hsub & Hm & Hr1).
  simpl.
  destruct (for_attempts_trace h m (Z.to_nat max_attempts) 0
              (RunState h1 "" None []) conv Hr1 Hsub Hm)
    as (c & st' & log & conv' & -> & Htr & Hcalls & Hsub' & Hm' & Hr').
  simpl in *. subst log.
  by exists (Run (conclude c (last_output st') (error_message st'))
               (heap st') m (calls st')), c, conv',
            (last_output st'), (error_message st').
Qed.

End Adequacy.

(** ** Properties of traces *)

Section TraceFacts.

Variable chat : nat -> list turn -> chat_outcome.
Variable json_loads : string -> loads_outcome.

Abbreviation trace := (attempts_trace chat json_loads).
Abbreviation verdict_of := (judge json_loads).

(** The log records, in order, what attempt [a], [a + 1], ... received. *)
Lemma trace_calls a n v log c v' :
  trace a n v log c v' ->
  forall i cv o, log !! i = Some (cv, o) -> o = chat (a + i) cv.
Proof.
  induction 1 as [a v|a n conv lo em err Hj|a n conv lo em raw err corr log c v' Hj Htr IH
                 |a n conv lo em p raw Hj|a n conv lo em raw e Hj];
    intros i cv o Hi.
  - by rewrite lookup_nil in Hi.
  - destruct i as [|i]; simpl in Hi; [|by rewrite lookup_nil in Hi].
    injection Hi as <- <-. by rewrite Nat.add_0_r.
  - destruct i as [|i]; simpl in Hi.
    + injection Hi as <- <-. by rewrite Nat.add_0_r.
    + rewrite (IH _ _ _ Hi). f_equal. lia.
  - destruct i as [|i]; simpl in Hi; [|by rewrite lookup_nil in Hi].
    injection Hi as <- <-. by rewrite Nat.add_0_r.
  - destruct i as [|i]; simpl in Hi; [|by rewrite lookup_nil in Hi].
    injection Hi as <- <-. by rewrite Nat.add_0_r.
Qed.

Lemma trace_length a n v log c v' :
  trace a n v log c v' -> length log <= n.
Proof. induction 1; simpl; lia. Qed.

Lemma trace_first a n conv lo em log c v' :
  trace a n (conv, lo, em) log c v' ->
  forall cv o, log !! 0 = Some (cv, o) -> cv = conv.
Proof.
  inversion 1; subst; intros cv o Hi; simpl in Hi; try discriminate;
    by injection Hi as <- <-.
Qed.

(** Between two consecutive calls lies a rejected attempt and its two
    corrective turns. *)
Lemma trace_step a n v log c v' :
  trace a n v log c v' ->
  forall i cv o cv' o',
    log !! i = Some (cv, o) -> log !! S i = Some (cv', o') ->
    exists raw err corr,
      verdict_of o = Retry raw err corr
      /\ cv' = (cv ++ [assistant_turn raw; user_turn corr])%list.
Proof.
  induction 1 as [a v|a n conv lo em err Hj|a n conv lo em raw err corr log c v' Hj Htr IH
                 |a n conv lo em p raw Hj|a n conv lo em raw e Hj];
    intros i cv o cv' o' Hi Hs; simpl in Hs; try by rewrite lookup_nil in Hs.
  - by rewrite lookup_nil in Hi.
  - destruct i as [|i]; simpl in Hi.
    + injection Hi as <- <-. exists raw, err, corr. split; [done|].
      destruct v' as [[conv' lo'] em']. eapply trace_first; eauto.
    + eauto.
Qed.

(** How the loop is left, read off the last call. *)
Lemma trace_last a n v log c v' :
  trace a n v log c v' ->
  forall cv o, last log = Some (cv, o) ->
    match verdict_of o with
    | Fatal err =>
        c = Break /\ exists lo, v' = (cv, lo, Some err)
    | Retry raw err corr =>
        c = Continue /\ length log = n
        /\ v' = ((cv ++ [assistant_turn raw; user_turn corr])%list, raw, Some err)
    | Accept payload raw =>
        c = Return (Some payload, raw, true, None)
        /\ exists em, v' = (cv, raw, em)
    | Crash raw e =>
        c = Raised e /\ exists em, v' = (cv, raw, em)
    end.
Proof.
  induction 1 as [a v|a n conv lo em err Hj|a n conv lo em raw err corr log c v' Hj Htr IH
                 |a n conv lo em p raw Hj|a n conv lo em raw e Hj];
    intros cv o Hl; simpl in Hl; try discriminate.
  - injection Hl as <- <-. rewrite Hj. eauto.
  - destruct log as [|x log].
    + simpl in Hl. injection Hl as <- <-. rewrite Hj.
      inversion Htr; subst. done.
    + change (last ((conv, chat a conv) :: x :: log)) with (last (x :: log)) in Hl.
      specialize (IH _ _ Hl). destruct (verdict_of o); try done.
      destruct IH as (? & <- & ?). done.
  - injection Hl as <- <-. rewrite Hj. eauto.
  - injection Hl as <- <-. rewrite Hj. eauto.
Qed.

Lemma trace_empty a n v c v' :
  trace a n v [] c v' -> n = 0 /\ c = Continue /\ v' = v.
Proof. by inversion 1. Qed.

(** Every call but the last was rejected. *)
Lemma trace_not_last a n v log c v' :
  trace a n v log c v' ->
  forall i cv o, log !! i = Some (cv, o) -> S i < length log ->
    exists raw err corr, verdict_of o = Retry raw err corr.
Proof.
  intros Htr i cv o Hi Hlt.
  destruct (lookup_lt_is_Some_2 log (S i) Hlt) as [[cv' o'] Hs].
  destruct (trace_step _ _ _ _ _ _ Htr _ _ _ _ _ Hi Hs) as (raw & err & corr & Hj & _).
  eauto.
Qed.

Lemma judge_accept o p raw :
  verdict_of o = Accept p raw <-> accepted json_loads o p raw.
Proof.
  unfold judge, accepted. split.
  - destruct o as [|exc|t]; try discriminate.
    destruct (json_loads (Py.strip t)) as [parsed|exc|e] eqn:Ej; try discriminate.
    destruct (validate_payload parsed) as [p' [[[|] ve]|e]] eqn:Ev; try discriminate.
    intros [= <- <-]. by exists t, parsed, ve.
  - intros (t & parsed & ve & -> & -> & Ej & Ev). simpl. by rewrite Ej, Ev.
Qed.

Lemma judge_retry o raw err corr :
  verdict_of o = Retry raw err corr <-> rejected json_loads o raw err corr.
Proof.
  unfold judge, rejected. split.
  - destruct o as [|exc|t]; try discriminate.
    destruct (json_loads (Py.strip t)) as [parsed|exc|e] eqn:Ej; try discriminate.
    + destruct (validate_payload parsed) as [p' [[[|] ve]|e]] eqn:Ev; try discriminate.
      intros [= <- <- <-]. exists t. split; [done|]. split; [done|]. right.
      rewrite Ej. by exists parsed, p', ve.
    + intros [= <- <- <-]. exists t. split; [done|]. split; [done|]. left.
      rewrite Ej. by exists exc.
  - intros (t & -> & -> & [(exc & Ej & -> & ->)|(parsed & p' & ve & Ej & Ev & -> & ->)]);
      simpl; by rewrite Ej, ?Ev.
Qed.

(** The trace of a run is unique. *)
Lemma trace_det a n v log1 c1 v1 :
  trace a n v log1 c1 v1 ->
  forall log2 c2 v2, trace a n v log2 c2 v2 ->
    log1 = log2 /\ c1 = c2 /\ v1 = v2.
Proof.
  induction 1 as [a v|a n conv lo em err Hj|a n conv lo em raw err corr log c v' Hj Htr IH
                 |a n conv lo em p raw Hj|a n conv lo em raw e Hj];
    intros log2 c2 v2 H2; inversion H2; subst; try congruence.
  - done.
  - split; [done|]. split; [done|]. congruence.
  - match goal with
    | H : judge _ _ = Retry _ _ _ |- _ => rewrite Hj in H; injection H as <- <- <-
    end.
    match goal with
    | H : attempts_trace _ _ _ _ _ _ _ _ |- _ => destruct (IH _ _ _ H) as (-> & -> & ->)
    end.
    done.
  - match goal with
    | H : judge _ _ = Accept _ _ |- _ => rewrite Hj in H; injection H as <- <-
    end.
    done.
  - match goal with
    | H : judge _ _ = Crash _ _ |- _ => rewrite Hj in H; injection H as <- <-
    end.
    done.
Qed.

(** A [return] from inside the loop comes from an accepted last call. *)
Lemma trace_return a n v log x v' :
  trace a n v log (Return x) v' ->
  exists cv o p raw,
    last log = Some (cv, o) /\ verdict_of o = Accept p raw
    /\ x = (Some p, raw, true, None).
Proof.
  intros Htr. destruct (last log) as [[cv o]|] eqn:Hl.
  - pose proof (trace_last _ _ _ _ _ _ Htr _ _ Hl) as Hm.
    destruct (verdict_of o) as [err|raw err corr|p raw|raw e] eqn:Hj.
    + by destruct Hm.
    + by destruct Hm.
    + destruct Hm as ([= ->] & _). by exists cv, o, p, raw.
    + by destruct Hm.
  - apply last_None in Hl. rewrite Hl in Htr.
    by destruct (trace_empty _ _ _ _ _ Htr) as (_ & ? & _).
Qed.

(** A call that was not rejected is the last one. *)
Lemma trace_final_call a n v log c v' :
  trace a n v log c v' ->
  forall i cv o, log !! i = Some (cv, o) ->
    (forall raw err corr, verdict_of o <> Retry raw err corr) ->
    length log = S i /\ last log = Some (cv, o).
Proof.
  intros Htr i cv o Hi Hno.
  pose proof (lookup_lt_Some _ _ _ Hi) as Hlt.
  destruct (decide (S i < length log)) as [Hs|Hs].
  - destruct (trace_not_last _ _ _ _ _ _ Htr _ _ _ Hi Hs) as (raw & err & corr & Hj).
    by destruct (Hno raw err corr).
  - assert (length log = S i) as Hlen by lia.
    split; [done|]. by rewrite last_lookup, Hlen.
Qed.

(** After a rejected attempt: one more call on the extended conversation
    if the budget allows, otherwise the loop runs out. *)
Lemma trace_after_retry a n v log c v' :
  trace a n v log c v' ->
  forall i cv o raw err corr,
    log !! i = Some (cv, o) -> verdict_of o = Retry raw err corr ->
    (S i < n ->
       exists o', log !! S i
                  = Some ((cv ++ [assistant_turn raw; user_turn corr])%list, o'))
    /\ (S i = n ->
          c = Continue
          /\ v' = ((cv ++ [assistant_turn raw; user_turn corr])%list, raw, Some err)).
Proof.
  intros Htr i cv o raw err corr Hi Hj.
  pose proof (lookup_lt_Some _ _ _ Hi) as Hlt.
  pose proof (trace_length _ _ _ _ _ _ Htr) as Hle.
  assert (Hlast : length log = S i ->
                  c = Continue /\ length log = n
                  /\ v' = ((cv ++ [assistant_turn raw; user_turn corr])%list, raw, Some err)).
  { intros Hlen.
    assert (Hl : last log = Some (cv, o)) by (by rewrite last_lookup, Hlen).
    pose proof (trace_last _ _ _ _ _ _ Htr _ _ Hl) as Hm. by rewrite Hj in Hm. }
  split.
  - intros Hn. destruct (decide (S i < length log)) as [Hs|Hs].
    + destruct (lookup_lt_is_Some_2 log (S i) Hs) as [[cv' o'] Hs'].
      destruct (trace_step _ _ _ _ _ _ Htr _ _ _ _ _ Hi Hs')
        as (raw' & err' & corr' & Hj' & ->).
      rewrite Hj in Hj'. injection Hj' as <- <- <-. by exists o'.
    + destruct Hlast as (_ & ? & _); lia.
  - intros Hn. destruct Hlast as (? & _ & ?); [lia|done].
Qed.

End TraceFacts.

(** ** The built-ins on sample inputs *)

Example lower_sample : Py.lower "Spawn_Object 42" = "spawn_object 42".
Proof. reflexivity. Qed.

Example strip_sample :
  Py.strip (String (ascii_of_nat 10) "  {a b}	 ") = "{a b}".
Proof. reflexivity. Qed.

Example float_literal_samples :
  map Py.float_literal
      ["1.5"; " 1_0.5e+3 "; "1."; ".5"; "-Infinity"; "+nan"; "1e5_0"; "1e999";
       "a"; ""; " "; "."; "1_"; "1__0"; "infin"; "1e"; "0x10"; "1 2"; "- 1"]
  = [true; true; true; true; true; true; true; true;
     false; false; false; false; false; false; false; false; false; false; false].
Proof. vm_compute. reflexivity. Qed.

Example float_int_samples :
  Py.float (JInt (2 ^ 1024 - 2 ^ 970 - 1)) = Ok tt
  /\ Py.float (JInt (2 ^ 1024 - 2 ^ 970)) = Raise OverflowError
  /\ Py.float (JInt (- 10 ^ 400)) = Raise OverflowError
  /\ Py.float JNull = Raise TypeError
  /\ Py.float (JList []) = Raise TypeError.
Proof. repeat split; vm_compute; reflexivity. Qed.

(** ** Properties of the validator *)

Lemma allowed_cases (c : string) :
  c ∈ ALLOWED_COMMANDS ->
  c = "spawn_object" \/ c = "delete_object" \/ c = "translate_mesh" \/ c = "rotate_mesh".
Proof. unfold ALLOWED_COMMANDS. set_solver. Qed.

Lemma allowed_lower (c : string) : c ∈ ALLOWED_COMMANDS -> Py.lower c = c.
Proof. intros H. by destruct (allowed_cases c H) as [-> | [-> | [-> | ->]]]. Qed.

Lemma lower_nonempty (c : string) : Py.lower c ∈ ALLOWED_COMMANDS -> String.eqb c "" = false.
Proof.
  destruct c; [|done]. simpl. intros H.
  by destruct (allowed_cases _ H) as [? | [? | [? | ?]]].
Qed.

(** Once the name passes the allow-list, the payload is rewritten and
    checked exactly as if it had been sent in lower case. *)
Lemma validate_payload_normalize (d : gmap string json) (c : string) :
  d !! "command" = Some (JStr c) -> Py.lower c ∈ ALLOWED_COMMANDS ->
  validate_payload (JDict d)
  = validate_payload (JDict (<["command" := JStr (Py.lower c)]> d)).
Proof.
  intros Hc Hin.
  pose proof (lower_nonempty c Hin) as Hne.
  pose proof (allowed_lower _ Hin) as Hll.
  assert (Hne' : String.eqb (Py.lower c) "" = false).
  { apply lower_nonempty. by rewrite Hll. }
  assert (H1 : Py.dict_get d "command" = JStr c).
  { unfold Py.dict_get. by rewrite Hc. }
  assert (H2 : Py.dict_get (<["command" := JStr (Py.lower c)]> d) "command"
               = JStr (Py.lower c)).
  { unfold Py.dict_get. by rewrite lookup_insert_eq. }
  unfold validate_payload. rewrite H1, H2.
  cbn [Py.truthy Py.isinstance_str Py.str_of orb negb].
  rewrite Hne, Hne', Hll. cbn [negb orb].
  rewrite (bool_decide_eq_true_2 _ Hin). cbn [negb].
  rewrite insert_insert_eq. reflexivity.
Qed.

Lemma validate_payload_state (d : gmap string json) :
  (validate_payload (JDict d)).1 = JDict d
  \/ exists c, d !! "command" = Some (JStr c) /\ Py.lower c ∈ ALLOWED_COMMANDS
               /\ (validate_payload (JDict d)).1
                  = JDict (<["command" := JStr (Py.lower c)]> d).
Proof.
  unfold validate_payload.
  destruct (Py.dict_get d "command") as [| | | |c| |] eqn:Ec;
    try (left; cbn [Py.truthy Py.isinstance_str orb negb];
         by rewrite ?orb_true_r).
  assert (Hc : d !! "command" = Some (JStr c)).
  { unfold Py.dict_get in Ec. destruct (d !! "command"); simpl in Ec; congruence. }
  cbn [Py.truthy Py.isinstance_str Py.str_of orb negb].
  destruct (String.eqb c ""); [by left|]. cbn [negb orb].
  destruct (bool_decide (Py.lower c ∈ ALLOWED_COMMANDS)) eqn:Ein; [|by left].
  apply bool_decide_eq_true_1 in Ein. right. exists c.
  split; [done|]. split; [done|]. cbn [negb].
  repeat case_match; reflexivity.
Qed.

Lemma validate_payload_allowed_state (d : gmap string json) (c : string) :
  d !! "command" = Some (JStr c) -> Py.lower c ∈ ALLOWED_COMMANDS ->
  (validate_payload (JDict d)).1 = JDict (<["command" := JStr (Py.lower c)]> d).
Proof.
  intros Hc Hin. rewrite (validate_payload_normalize d c Hc Hin).
  destruct (validate_payload_state (<["command" := JStr (Py.lower c)]> d))
    as [H|(c' & Hc' & _ & H)]; [done|].
  rewrite lookup_insert_eq in Hc'. injection Hc' as <-.
  by rewrite H, (allowed_lower _ Hin), insert_insert_eq.
Qed.

Lemma is_vector_true (v : json) :
  is_vector v = Ok true <->
  exists d x y z,
    v = JDict d
    /\ d !! "x" = Some x /\ d !! "y" = Some y /\ d !! "z" = Some z
    /\ Py.float x = Ok tt /\ Py.float y = Ok tt /\ Py.float z = Ok tt.
Proof.
  split.
  - destruct v as [| | | | | |d]; try discriminate. unfold is_vector, Py.getitem.
    destruct (bool_decide _) eqn:Hk; [|discriminate]. cbn [negb].
    destruct (d !! "x") as [x|] eqn:Ex; [|discriminate]. simpl.
    destruct (Py.float x) as [[]|[]] eqn:Hx; try discriminate. simpl.
    destruct (d !! "y") as [y|] eqn:Ey; [|discriminate]. simpl.
    destruct (Py.float y) as [[]|[]] eqn:Hy; try discriminate. simpl.
    destruct (d !! "z") as [z|] eqn:Ez; [|discriminate]. simpl.
    destruct (Py.float z) as [[]|[]] eqn:Hz; try discriminate.
    intros _. exists d, x, y, z. by split_and!.
  - intros (d & x & y & z & -> & Ex & Ey & Ez & Hx & Hy & Hz).
    unfold is_vector, Py.getitem.
    rewrite bool_decide_eq_true_2.
    + cbn [negb]. rewrite Ex. simpl. rewrite Hx. simpl. rewrite Ey. simpl.
      rewrite Hy. simpl. rewrite Ez. simpl. by rewrite Hz.
    + apply elem_of_dom_2 in Ex, Ey, Ez. set_solver.
Qed.

(** [OverflowError] is the only exception that leaves the validator. *)
Lemma float_raises (v : json) (e : exn) :
  Py.float v = Raise e -> e = TypeError \/ e = ValueError \/ e = OverflowError.
Proof.
  destruct v as [| |n| |s| |]; simpl; try (intros [= <-]; tauto); try discriminate.
  - destruct (Py.int_fits_double n); [discriminate|]. intros [= <-]. tauto.
  - destruct (Py.float_literal s); [discriminate|]. intros [= <-]. tauto.
Qed.

Lemma is_vector_raises (v : json) (e : exn) :
  is_vector v = Raise e -> e = OverflowError.
Proof.
  destruct v as [| | | | | |d]; try discriminate. unfold is_vector, Py.getitem.
  destruct (bool_decide _) eqn:Hk; [|discriminate].
  apply bool_decide_eq_true_1 in Hk. cbn [negb].
  assert (Hx : is_Some (d !! "x")) by (apply elem_of_dom, Hk; set_solver).
  assert (Hy : is_Some (d !! "y")) by (apply elem_of_dom, Hk; set_solver).
  assert (Hz : is_Some (d !! "z")) by (apply elem_of_dom, Hk; set_solver).
  destruct Hx as [x ->], Hy as [y ->], Hz as [z ->]. simpl.
  destruct (Py.float x) as [[]|ex] eqn:Ex; simpl.
  - destruct (Py.float y) as [[]|ey] eqn:Ey; simpl.
    + destruct (Py.float z) as [[]|ez] eqn:Ez; [discriminate|].
      destruct (float_raises _ _ Ez) as [-> |[-> | ->]]; congruence.
    + destruct (float_raises _ _ Ey) as [-> |[-> | ->]]; congruence.
  - destruct (float_raises _ _ Ex) as [-> |[-> | ->]]; congruence.
Qed.

Lemma validate_payload_raises (payload : json) (e : exn) :
  (validate_payload payload).2 = Raise e -> e = OverflowError.
Proof.
  unfold validate_payload.
  repeat (case_match; simpl; try discriminate); subst; intros [= <-];
    repeat match goal with
           | H : is_vector _ = Raise _ |- _ => apply is_vector_raises in H
           | H : mbind _ _ = Raise _ |- _ => unfold mbind, result_bind in H
           | H : match is_vector ?v with _ => _ end = Raise _ |- _ =>
               let E := fresh "E" in
               destruct (is_vector v) as [[|]|] eqn:E; try discriminate
           | H : Raise _ = Raise _ |- _ => injection H as <-
           end; done.
Qed.

(** ** The claims about the vector checker and the validator *)

(** C4, as stated, fails: the checker accepts a vector whose [x] is the
    float NaN ([json.loads] reads the literal [NaN]), which is not a finite
    number. *)
Lemma is_vector_accepts_nan :
  is_vector nan_vector = Ok true /\ spec_is_vector nan_vector = false.
Proof. split; vm_compute; reflexivity. Qed.

(** C4, amended: [is_vector] returns [True] exactly when the value is a
    mapping that has the keys x, y and z and [float()] succeeds on each of
    the three values.  [float()] succeeds on every float, NaN and the
    infinities included, and on the strings "nan", "inf" and "-Infinity";
    the four vectors of the specification are accepted, resp. rejected, as
    it says. *)
Theorem is_vector_accepts_float_convertible :
  (forall v : json,
     is_vector v = Ok true <->
     exists d x y z,
       v = JDict d
       /\ d !! "x" = Some x /\ d !! "y" = Some y /\ d !! "z" = Some z
       /\ Py.float x = Ok tt /\ Py.float y = Ok tt /\ Py.float z = Ok tt)
  /\ (forall v : json, Py.isinstance_dict v = false -> is_vector v = Ok false)
  /\ (forall f : spec_float, Py.float (JFloat f) = Ok tt)
  /\ (forall b : bool, Py.float (JBool b) = Ok tt)
  /\ Py.float (JStr "nan") = Ok tt
  /\ Py.float (JStr "inf") = Ok tt
  /\ Py.float (JStr "-Infinity") = Ok tt
  /\ is_vector (vector3 (JInt 1) (JInt 2) (JInt 3)) = Ok true
  /\ is_vector (vector3 (JStr "1.5") (JInt 0) (JInt (-2))) = Ok true
  /\ is_vector (dict_of [("x", JInt 1); ("y", JInt 2)]) = Ok false
  /\ is_vector (vector3 (JStr "a") (JInt 0) (JInt 0)) = Ok false.
Proof.
  split; [exact is_vector_true|].
  split; [intros v Hv; destruct v; (reflexivity || discriminate)|].
  split; [done|]. split; [done|].
  repeat split; vm_compute; reflexivity.
Qed.

(** C5: command names are matched without regard to letter case.  If the
    [command] field differs from a registered name [r] only in letter case,
    validation goes exactly as for the payload carrying [r] itself, and it
    leaves [r] in the payload's [command] field.  The payload
    [{"command":"Spawn_Object","primitive_type":"Cube"}] validates and
    comes out with [command] set to [spawn_object]. *)
Theorem command_matching_ignores_case :
  (forall (d : gmap string json) (c r : string),
     d !! "command" = Some (JStr c) ->
     r ∈ ALLOWED_COMMANDS ->
     Py.lower c = Py.lower r ->
     validate_payload (JDict d)
     = validate_payload (JDict (<["command" := JStr r]> d))
     /\ (validate_payload (JDict d)).1 = JDict (<["command" := JStr r]> d))
  /\ validate_payload spawn_mixed_case = (spawn_normalized, Ok (true, None)).
Proof.
  split; [|vm_compute; reflexivity].
  intros d c r Hc Hr Hlow. rewrite (allowed_lower r Hr) in Hlow. subst r.
  split.
  - by apply validate_payload_normalize.
  - by apply validate_payload_allowed_state.
Qed.

Lemma command_matching_ignores_case_witness :
  (({[ "command" := JStr "Rotate_MESH" ]} : gmap string json) !! "command"
   = Some (JStr "Rotate_MESH")
   /\ "rotate_mesh" ∈ ALLOWED_COMMANDS
   /\ Py.lower "Rotate_MESH" = Py.lower "rotate_mesh")
  /\ (validate_payload (JDict {[ "command" := JStr "Rotate_MESH" ]})).1
     = JDict (<["command" := JStr "rotate_mesh"]> {[ "command" := JStr "Rotate_MESH" ]}).
Proof.
  assert (H1 : ({[ "command" := JStr "Rotate_MESH" ]} : gmap string json) !! "command"
               = Some (JStr "Rotate_MESH")) by reflexivity.
  assert (H2 : "rotate_mesh" ∈ ALLOWED_COMMANDS) by (vm_compute; set_solver).
  assert (H3 : Py.lower "Rotate_MESH" = Py.lower "rotate_mesh") by reflexivity.
  split; [by split_and!|].
  exact (proj2 (proj1 command_matching_ignores_case _ _ _ H1 H2 H3)).
Defined.

(** C8 fails on the code: [float] of an integer beyond the range of a double
    raises [OverflowError], which [is_vector] does not catch, so the
    exception leaves [validate_payload]. *)
Theorem validate_payload_raises_overflow :
  validate_payload huge_rotation = (huge_rotation, Raise OverflowError).
Proof. vm_compute. reflexivity. Qed.

(** C10: [validate_payload] writes to the [command] key only.  A value that
    is not a dictionary is left as it is; in a dictionary every key other
    than [command] keeps its value and no key is added or removed; and when
    the lower-cased name passes the allow-list it is written back, also
    when a required field is then found missing. *)
Theorem validate_payload_writes_command_only :
  (forall payload : json,
     Py.isinstance_dict payload = false -> (validate_payload payload).1 = payload)
  /\ (forall d : gmap string json,
        exists d', (validate_payload (JDict d)).1 = JDict d'
                   /\ (forall k, k <> "command" -> d' !! k = d !! k)
                   /\ dom d' = dom d)
  /\ (forall (d : gmap string json) (c : string),
        d !! "command" = Some (JStr c) -> Py.lower c ∈ ALLOWED_COMMANDS ->
        (validate_payload (JDict d)).1
        = JDict (<["command" := JStr (Py.lower c)]> d))
  /\ validate_payload (dict_of [("command", JStr "Spawn_Object"); ("object_name", JStr "Cube_A")])
     = (dict_of [("command", JStr "spawn_object"); ("object_name", JStr "Cube_A")],
        Ok (false, Some "spawn_object requires 'primitive_type'.")).
Proof.
  split; [intros v Hv; destruct v; (reflexivity || discriminate)|].
  split; [|split; [exact validate_payload_allowed_state|vm_compute; reflexivity]].
  intros d. destruct (validate_payload_state d) as [H|(c & Hc & _ & H)].
  - by exists d.
  - eexists. split; [exact H|]. split.
    + intros k Hk. by rewrite lookup_insert_ne.
    + rewrite dom_insert_L. apply elem_of_dom_2 in Hc. set_solver.
Qed.

Lemma validate_payload_writes_command_only_witness :
  (({[ "command" := JStr "Delete_Object" ]} : gmap string json) !! "command"
   = Some (JStr "Delete_Object")
   /\ Py.lower "Delete_Object" ∈ ALLOWED_COMMANDS)
  /\ (validate_payload (JDict {[ "command" := JStr "Delete_Object" ]})).1
     = JDict (<["command" := JStr (Py.lower "Delete_Object")]>
                {[ "command" := JStr "Delete_Object" ]}).
Proof.
  assert (H1 : ({[ "command" := JStr "Delete_Object" ]} : gmap string json) !! "command"
               = Some (JStr "Delete_Object")) by reflexivity.
  assert (H2 : Py.lower "Delete_Object" ∈ ALLOWED_COMMANDS) by (vm_compute; set_solver).
  split; [by split|].
  exact (proj1 (proj2 (proj2 validate_payload_writes_command_only)) _ _ H1 H2).
Defined.

(** ** The claims about the orchestrator *)

Lemma conclude_success (c : control) (lo : string) (em : option string)
    (payload : option json) (raw : string) (e : option string) :
  conclude c lo em = Ok (payload, raw, true, e) -> c = Return (payload, raw, true, e).
Proof. destruct c; simpl; congruence. Qed.




Section Claims.

Variable chat : nat -> list turn -> chat_outcome.
Variable json_loads : string -> loads_outcome.

Abbreviation run_of := (request_with_validation chat json_loads).

(** C1: the run reports success exactly when one of its attempts produced
    a text that parses as JSON and passes the validator; it then returns the
    payload as the validator left it, with that attempt's text.  With a
    budget of two attempts, a first answer that is not JSON and a second one
    that is a valid payload give success at the second attempt, after one
    corrective user turn (behind the echo of the first answer). *)
Theorem success_iff_attempt_accepted (h : store) (base : loc)
    (max_attempts : Z) (conv : list turn) :
  read_messages h base = Some conv ->
  exists r,
    run_of h base max_attempts = Some r
    /\ ((exists payload raw e, outcome r = Ok (payload, raw, true, e))
        <-> Exists (fun cl => exists p raw, accepted json_loads cl.2 p raw)
                   (completion_calls r))
    /\ (forall payload raw e,
          outcome r = Ok (payload, raw, true, e) ->
          exists cv o p,
            last (completion_calls r) = Some (cv, o)
            /\ accepted json_loads o p raw /\ payload = Some p /\ e = None)
    /\ (max_attempts = 2%Z ->
        forall t1 exc t2 parsed p diag,
          chat 0 conv = ChatResponse t1 ->
          json_loads (Py.strip t1) = JSONDecodeError exc ->
          chat 1 (conv ++ [assistant_turn (Py.strip t1);
                           user_turn (parse_correction exc)])%list
          = ChatResponse t2 ->
          json_loads (Py.strip t2) = Parsed parsed ->
          validate_payload parsed = (p, Ok (true, diag)) ->
          outcome r = Ok (Some p, Py.strip t2, true, None)
          /\ completion_calls r
             = [(conv, ChatResponse t1);
                ((conv ++ [assistant_turn (Py.strip t1);
                           user_turn (parse_correction exc)])%list,
                 ChatResponse t2)]
          /\ read_messages (final_heap r) (messages_loc r)
             = Some (conv ++ [assistant_turn (Py.strip t1);
                              user_turn (parse_correction exc)])%list).
Proof.
  intros Hr.
  destruct (run_trace chat json_loads h base max_attempts conv Hr)
    as (r & c & conv' & lo & em & Hrun & Htr & Hout & Hsub & Hpriv & Hfin).
  exists r. split; [exact Hrun|].
  assert (Hret : forall payload raw e,
             outcome r = Ok (payload, raw, true, e) ->
             exists cv o p,
               last (completion_calls r) = Some (cv, o)
               /\ accepted json_loads o p raw /\ payload = Some p /\ e = None).
  { intros payload raw e Ho. rewrite Hout in Ho.
    apply conclude_success in Ho. subst c.
    destruct (trace_return _ _ _ _ _ _ _ _ Htr)
      as (cv & o & p & raw' & Hl & Hj & [= -> -> ->]).
    exists cv, o, p. by rewrite <- judge_accept. }
  split; [|split; [exact Hret|]].
  - split.
    + intros (payload & raw & e & Ho).
      destruct (Hret _ _ _ Ho) as (cv & o & p & Hl & Hacc & _).
      apply Exists_exists. exists (cv, o). split; [|by exists p, raw].
      rewrite last_lookup in Hl. by eapply list_elem_of_lookup_2.
    + intros Hex. apply Exists_exists in Hex.
      destruct Hex as ([cv o] & Hin & p & raw & Hacc).
      apply list_elem_of_lookup in Hin. destruct Hin as [i Hi].
      apply judge_accept in Hacc.
      destruct (trace_final_call _ _ _ _ _ _ _ _ Htr _ _ _ Hi) as (_ & Hl).
      { intros ???. simpl in Hacc. congruence. }
      pose proof (trace_last _ _ _ _ _ _ _ _ Htr _ _ Hl) as Hm.
      simpl in Hacc. rewrite Hacc in Hm. destruct Hm as (-> & _).
      rewrite Hout. simpl. eauto.
  - intros -> t1 exc t2 parsed p diag Hc1 Hj1 Hc2 Hj2 Hv.
    assert (Hexp : attempts_trace chat json_loads 0 2 (conv, "", None)
                     [(conv, chat 0 conv);
                      ((conv ++ [assistant_turn (Py.strip t1);
                                 user_turn (parse_correction exc)])%list,
                       chat 1 (conv ++ [assistant_turn (Py.strip t1);
                                        user_turn (parse_correction exc)])%list)]
                     (Return (Some p, Py.strip t2, true, None))
                     ((conv ++ [assistant_turn (Py.strip t1);
                                user_turn (parse_correction exc)])%list,
                      Py.strip t2,
                      Some ("Model response was not valid JSON: " ++ exc))).
    { eapply trace_retry.
      - rewrite Hc1. simpl. by rewrite Hj1.
      - apply trace_accept. rewrite Hc2. simpl. by rewrite Hj2, Hv. }
    destruct (trace_det _ _ _ _ _ _ _ _ Htr _ _ _ Hexp) as (Hlog & -> & [= -> -> ->]).
    rewrite Hout, Hlog, Hc1, Hc2. done.
Qed.

(** C2: a completion call that times out or fails ends the run at once.
    The calls logged are those of attempts [0], [1], ... in order; a call
    that timed out or raised is the last one made, and the run returns a
    failure with the error message set.  A time-out at the first attempt
    gives a failure after exactly one call. *)
Theorem fatal_attempt_ends_run (h : store) (base : loc)
    (max_attempts : Z) (conv : list turn) :
  read_messages h base = Some conv ->
  exists r,
    run_of h base max_attempts = Some r
    /\ (forall i cv o, completion_calls r !! i = Some (cv, o) -> o = chat i cv)
    /\ (forall i cv,
          completion_calls r !! i = Some (cv, ChatTimeout) ->
          length (completion_calls r) = S i
          /\ exists raw,
               outcome r = Ok (None, raw, false, Some "Ollama request failed: timeout"))
    /\ (forall i cv exc,
          completion_calls r !! i = Some (cv, ChatFailed exc) ->
          length (completion_calls r) = S i
          /\ exists raw,
               outcome r
               = Ok (None, raw, false, Some ("Ollama request failed: " ++ exc)))
    /\ ((0 < max_attempts)%Z -> chat 0 conv = ChatTimeout ->
        completion_calls r = [(conv, ChatTimeout)]
        /\ outcome r = Ok (None, "", false, Some "Ollama request failed: timeout")).
Proof.
  intros Hr.
  destruct (run_trace chat json_loads h base max_attempts conv Hr)
    as (r & c & conv' & lo & em & Hrun & Htr & Hout & Hsub & Hpriv & Hfin).
  exists r. split; [exact Hrun|].
  assert (Hfatal : forall i cv o err,
             completion_calls r !! i = Some (cv, o) ->
             judge json_loads o = Fatal err -> err <> "" ->
             length (completion_calls r) = S i
             /\ exists raw, outcome r = Ok (None, raw, false, Some err)).
  { intros i cv o err Hi Hj Hne.
    destruct (trace_final_call _ _ _ _ _ _ _ _ Htr _ _ _ Hi) as (Hlen & Hl).
    { intros ???. congruence. }
    split; [exact Hlen|].
    pose proof (trace_last _ _ _ _ _ _ _ _ Htr _ _ Hl) as Hm.
    rewrite Hj in Hm. destruct Hm as (-> & lo' & [= -> -> ->]).
    exists lo'. rewrite Hout. simpl. destruct err; [done|reflexivity]. }
  split_and!.
  - intros i cv o Hi. by rewrite (trace_calls _ _ _ _ _ _ _ _ Htr _ _ _ Hi).
  - intros i cv Hi. by eapply Hfatal.
  - intros i cv exc Hi. by eapply Hfatal.
  - intros Hpos Hc.
    destruct (Z.to_nat max_attempts) as [|n] eqn:Hn; [lia|].
    assert (Hexp : attempts_trace chat json_loads 0 (S n) (conv, "", None)
                     [(conv, chat 0 conv)] Break
                     (conv, "", Some "Ollama request failed: timeout")).
    { apply trace_fatal. by rewrite Hc. }
    destruct (trace_det _ _ _ _ _ _ _ _ Htr _ _ _ Hexp) as (Hlog & -> & [= -> -> ->]).
    by rewrite Hout, Hlog, Hc.
Qed.




(** C9: the caller's conversation is not touched.  Every object of the
    store the call was entered with is found unchanged when it returns, so
    the list at [base] and its turns read as before; the list the run works
    on and the turns in it are objects created by the call. *)
Theorem base_messages_unchanged (h : store) (base : loc)
    (max_attempts : Z) (conv : list turn) :
  read_messages h base = Some conv ->
  exists r,
    run_of h base max_attempts = Some r
    /\ h ⊆ final_heap r
    /\ final_heap r !! base = h !! base
    /\ read_messages (final_heap r) base = Some conv
    /\ private_list h (final_heap r) (messages_loc r).
Proof.
  intros Hr.
  destruct (run_trace chat json_loads h base max_attempts conv Hr)
    as (r & c & conv' & lo & em & Hrun & Htr & Hout & Hsub & Hpriv & Hfin).
  exists r. split; [exact Hrun|]. split; [exact Hsub|].
  unfold read_messages in Hr |- *.
  destruct (h !! base) as [[items|]|] eqn:Hb; try discriminate.
  rewrite (lookup_weaken _ _ _ _ Hb Hsub).
  split; [done|]. split; [|exact Hpriv].
  by eapply read_all_mono.
Qed.

End Claims.

(** C6: [unknown] is not an allowed command.  A payload whose command is
    [unknown] fails validation with the unknown-command diagnostic; in a
    run, the attempt that produced it is a rejected one: if the budget
    allows, another completion call follows on the conversation extended by
    the echo and the correction, and if it was the last attempt the run
    returns a failure carrying that diagnostic. *)
Theorem unknown_command_consumes_attempt :
  ("unknown" ∉ ALLOWED_COMMANDS)
  /\ (forall d : gmap string json,
        d !! "command" = Some (JStr "unknown") ->
        validate_payload (JDict d)
        = (JDict d, Ok (false, Some "Command 'unknown' is not in the allowed list.")))
  /\ (forall chat json_loads (h : store) (base : loc) (max_attempts : Z)
             (conv : list turn),
        read_messages h base = Some conv ->
        exists r,
          request_with_validation chat json_loads h base max_attempts = Some r
          /\ forall i cv t (d : gmap string json),
               completion_calls r !! i = Some (cv, ChatResponse t) ->
               json_loads (Py.strip t) = Parsed (JDict d) ->
               d !! "command" = Some (JStr "unknown") ->
               let cv' :=
                 (cv ++ [assistant_turn (Py.strip t);
                         user_turn (validation_correction
                           (Some "Command 'unknown' is not in the allowed list."))])%list in
               (S i < Z.to_nat max_attempts ->
                  exists o', completion_calls r !! S i = Some (cv', o'))
               /\ (S i = Z.to_nat max_attempts ->
                     outcome r
                     = Ok (None, Py.strip t, false,
                           Some "Invalid command payload: Command 'unknown' is not in the allowed list.")
                     /\ read_messages (final_heap r) (messages_loc r) = Some cv')).
Proof.
  assert (Hnot : "unknown" ∉ ALLOWED_COMMANDS) by (unfold ALLOWED_COMMANDS; set_solver).
  assert (Hval : forall d : gmap string json,
             d !! "command" = Some (JStr "unknown") ->
             validate_payload (JDict d)
             = (JDict d, Ok (false, Some "Command 'unknown' is not in the allowed list."))).
  { intros d Hd. unfold validate_payload.
    assert (H1 : Py.dict_get d "command" = JStr "unknown").
    { unfold Py.dict_get. by rewrite Hd. }
    rewrite H1. cbn [Py.truthy Py.isinstance_str Py.str_of String.eqb Ascii.eqb
                     Bool.eqb orb negb andb].
    change (Py.lower "unknown") with "unknown".
    by rewrite (bool_decide_eq_false_2 _ Hnot). }
  split; [exact Hnot|]. split; [exact Hval|].
  intros chat json_loads h base max_attempts conv Hr.
  destruct (run_trace chat json_loads h base max_attempts conv Hr)
    as (r & c & conv' & lo & em & Hrun & Htr & Hout & Hsub & Hpriv & Hfin).
  exists r. split; [exact Hrun|].
  intros i cv t d Hi Hj Hd cv'.
  assert (Hv : judge json_loads (ChatResponse t)
               = Retry (Py.strip t)
                   "Invalid command payload: Command 'unknown' is not in the allowed list."
                   (validation_correction
                      (Some "Command 'unknown' is not in the allowed list."))).
  { simpl. by rewrite Hj, (Hval d Hd). }
  destruct (trace_after_retry _ _ _ _ _ _ _ _ Htr _ _ _ _ _ _ Hi Hv) as (Hnext & Hend).
  split; [exact Hnext|].
  intros Hn. destruct (Hend Hn) as (-> & [= -> -> ->]).
  by rewrite Hout.
Qed.

(** An exception raised by the validator leaves the run as well: the call
    to [validate_payload] is outside any [try]. *)
Lemma overflow_leaves_run chat json_loads (h : store) (base : loc)
    (max_attempts : Z) (conv : list turn) (t : string) :
  read_messages h base = Some conv ->
  (0 < max_attempts)%Z ->
  chat 0 conv = ChatResponse t ->
  json_loads (Py.strip t) = Parsed huge_rotation ->
  exists r,
    request_with_validation chat json_loads h base max_attempts = Some r
    /\ outcome r = Raise OverflowError
    /\ completion_calls r = [(conv, ChatResponse t)].
Proof.
  intros Hr Hpos Hc Hj.
  destruct (run_trace chat json_loads h base max_attempts conv Hr)
    as (r & c & conv' & lo & em & Hrun & Htr & Hout & _).
  exists r. split; [exact Hrun|].
  destruct (Z.to_nat max_attempts) as [|n] eqn:Hn; [lia|].
  assert (Hv : validate_payload huge_rotation = (huge_rotation, Raise OverflowError))
    by (vm_compute; reflexivity).
  assert (Hexp : attempts_trace chat json_loads 0 (S n) (conv, "", None)
                   [(conv, chat 0 conv)] (Raised OverflowError)
                   (conv, Py.strip t, None)).
  { apply trace_crash. rewrite Hc. simpl. by rewrite Hj, Hv. }
  destruct (trace_det _ _ _ _ _ _ _ _ Htr _ _ _ Hexp) as (Hlog & -> & [= -> -> ->]).
  clear Hv Hj Hexp Htr. rewrite Hout, Hlog, Hc. split; reflexivity.
Qed.

(** ** The theorems at work on sample runs *)

Lemma success_iff_attempt_accepted_witness :
  read_messages sample_store 1%positive = Some sample_conversation
  /\ exists r,
       request_with_validation chat_prose_then_json sample_loads
         sample_store 1%positive 2 = Some r
       /\ outcome r = Ok (Some translate_up, translate_text, true, None)
       /\ length (completion_calls r) = 2.
Proof.
  assert (Hr : read_messages sample_store 1%positive = Some sample_conversation)
    by (vm_compute; reflexivity).
  split; [exact Hr|].
  destruct (success_iff_attempt_accepted chat_prose_then_json sample_loads
              sample_store 1%positive 2 sample_conversation Hr)
    as (r & Hrun & _ & _ & Hcase).
  exists r. split; [exact Hrun|].
  assert (H1 : sample_loads (Py.strip " Sure! I will move the cube up. ")
               = JSONDecodeError "Expecting value: line 1 column 1 (char 0)")
    by (vm_compute; reflexivity).
  assert (H2 : sample_loads (Py.strip translate_text) = Parsed translate_up)
    by (vm_compute; reflexivity).
  assert (H3 : validate_payload translate_up = (translate_up, Ok (true, None)))
    by (vm_compute; reflexivity).
  destruct (Hcase eq_refl _ _ translate_text _ _ _ eq_refl H1 eq_refl H2 H3)
    as (Ho & Hc & _).
  split; [exact Ho|]. by rewrite Hc.
Defined.

Lemma fatal_attempt_ends_run_witness :
  read_messages sample_store 1%positive = Some sample_conversation
  /\ exists r,
       request_with_validation chat_timeout sample_loads sample_store 1%positive 2
       = Some r
       /\ completion_calls r = [(sample_conversation, ChatTimeout)]
       /\ outcome r = Ok (None, "", false, Some "Ollama request failed: timeout").
Proof.
  assert (Hr : read_messages sample_store 1%positive = Some sample_conversation)
    by (vm_compute; reflexivity).
  split; [exact Hr|].
  destruct (fatal_attempt_ends_run chat_timeout sample_loads
              sample_store 1%positive 2 sample_conversation Hr)
    as (r & Hrun & _ & _ & _ & Hcase).
  exists r. split; [exact Hrun|]. apply Hcase; reflexivity.
Defined.


Lemma unknown_command_consumes_attempt_witness :
  read_messages sample_store 1%positive = Some sample_conversation
  /\ exists r,
       request_with_validation chat_unknown sample_loads sample_store 1%positive 1
       = Some r
       /\ outcome r
          = Ok (None, unknown_snippet, false,
                Some "Invalid command payload: Command 'unknown' is not in the allowed list.").
Proof.
  assert (Hr : read_messages sample_store 1%positive = Some sample_conversation)
    by (vm_compute; reflexivity).
  split; [exact Hr|].
  destruct (proj2 (proj2 unknown_command_consumes_attempt) chat_unknown sample_loads
              sample_store 1%positive 1%Z sample_conversation Hr)
    as (r & Hrun & Hcase).
  exists r. split; [exact Hrun|].
  assert (Hc : completion_calls r !! 0 = Some (sample_conversation, ChatResponse unknown_snippet)).
  { vm_compute in Hrun. injection Hrun as <-. vm_compute. reflexivity. }
  assert (H1 : sample_loads (Py.strip unknown_snippet)
               = Parsed (JDict (list_to_map [("command", JStr "unknown");
                                             ("reason", JStr "need clarification")])))
    by (vm_compute; reflexivity).
  assert (H2 : (list_to_map [("command", JStr "unknown");
                             ("reason", JStr "need clarification")]
                : gmap string json) !! "command" = Some (JStr "unknown"))
    by (vm_compute; reflexivity).
  exact (proj1 (proj2 (Hcase 0 _ _ _ Hc H1 H2) eq_refl)).
Defined.


Lemma base_messages_unchanged_witness :
  read_messages sample_store 1%positive = Some sample_conversation
  /\ exists r,
       request_with_validation chat_prose sample_loads sample_store 1%positive 2
       = Some r
       /\ read_messages (final_heap r) 1%positive = Some sample_conversation.
Proof.
  assert (Hr : read_messages sample_store 1%positive = Some sample_conversation)
    by (vm_compute; reflexivity).
  split; [exact Hr|].
  destruct (base_messages_unchanged chat_prose sample_loads
              sample_store 1%positive 2 sample_conversation Hr)
    as (r & Hrun & _ & _ & Hread & _).
  by exists r.
Defined.

(** ** Further properties of the validator *)

Lemma dict_get_insert_ne (d : gmap string json) (k k' : string) (v : json) :
  k <> k' -> Py.dict_get (<[k := v]> d) k' = Py.dict_get d k'.
Proof. intros H. unfold Py.dict_get. by rewrite lookup_insert_ne. Qed.

(** The verdict on a payload whose command passes the allow-list, read off
    the payload as it was sent. *)
Lemma validate_payload_allowed_verdict (d : gmap string json) (c : string) :
  d !! "command" = Some (JStr c) -> Py.lower c ∈ ALLOWED_COMMANDS ->
  (validate_payload (JDict d)).2 =
    if String.eqb (Py.lower c) "spawn_object" then
      if Py.truthy (Py.dict_get d "primitive_type") then Ok (true, None)
      else Ok (false, Some "spawn_object requires 'primitive_type'.")
    else if String.eqb (Py.lower c) "delete_object" then
      if Py.truthy (Py.dict_get d "object_name") then Ok (true, None)
      else Ok (false, Some "delete_object requires 'object_name'.")
    else if String.eqb (Py.lower c) "translate_mesh" then
      match is_vector (Py.dict_get d "offset") with
      | Raise e => Raise e
      | Ok true => Ok (true, None)
      | Ok false =>
          match is_vector (Py.dict_get d "position") with
          | Raise e => Raise e
          | Ok true => Ok (true, None)
          | Ok false =>
              Ok (false, Some "translate_mesh requires 'offset' or 'position' vector.")
          end
      end
    else
      match is_vector (Py.dict_get d "rotation") with
      | Raise e => Raise e
      | Ok true => Ok (true, None)
      | Ok false => Ok (false, Some "rotate_mesh requires 'rotation' vector.")
      end.
Proof.
  intros Hc Hin.
  pose proof (lower_nonempty c Hin) as Hne.
  assert (H1 : Py.dict_get d "command" = JStr c).
  { unfold Py.dict_get. by rewrite Hc. }
  unfold validate_payload. rewrite H1.
  cbn [Py.truthy Py.isinstance_str Py.str_of orb negb].
  rewrite Hne. cbn [negb orb].
  rewrite (bool_decide_eq_true_2 _ Hin). cbn [negb].
  rewrite !dict_get_insert_ne by done.
  destruct (allowed_cases _ Hin) as [-> | [-> | [-> | ->]]];
    cbn [String.eqb Ascii.eqb Bool.eqb andb].
  - by destruct (Py.truthy _).
  - by destruct (Py.truthy _).
  - destruct (is_vector (Py.dict_get d "offset")) as [[|]|e]; try done.
    simpl. by destruct (is_vector (Py.dict_get d "position")) as [[|]|e'].
  - by destruct (is_vector (Py.dict_get d "rotation")) as [[|]|e].
Qed.

Lemma validate_payload_no_command (d : gmap string json) :
  ~ (exists c, c <> "" /\ d !! "command" = Some (JStr c)) ->
  validate_payload (JDict d)
  = (JDict d, Ok (false, Some "Missing or invalid 'command' field.")).
Proof.
  intros Hno. unfold validate_payload, Py.dict_get.
  destruct (d !! "command") as [[| | | |c| |]|] eqn:Ec; simpl;
    rewrite ?orb_true_r; try reflexivity.
  destruct c; [reflexivity|]. destruct Hno. eexists. split; [|reflexivity]. done.
Qed.

Lemma validate_payload_not_allowed (d : gmap string json) (c : string) :
  d !! "command" = Some (JStr c) -> c <> "" -> Py.lower c ∉ ALLOWED_COMMANDS ->
  validate_payload (JDict d)
  = (JDict d, Ok (false, Some ("Command '" ++ c ++ "' is not in the allowed list."))).
Proof.
  intros Hc Hne Hnot.
  assert (H1 : Py.dict_get d "command" = JStr c).
  { unfold Py.dict_get. by rewrite Hc. }
  unfold validate_payload. rewrite H1.
  cbn [Py.truthy Py.isinstance_str Py.str_of orb negb].
  destruct c; [done|]. cbn [String.eqb negb orb].
  by rewrite (bool_decide_eq_false_2 _ Hnot).
Qed.

(** The three ways through the validator. *)
Lemma validate_payload_cases (d : gmap string json) :
  (~ (exists c, c <> "" /\ d !! "command" = Some (JStr c)))
  \/ (exists c, d !! "command" = Some (JStr c) /\ c <> ""
                /\ Py.lower c ∉ ALLOWED_COMMANDS)
  \/ (exists c, d !! "command" = Some (JStr c) /\ Py.lower c ∈ ALLOWED_COMMANDS).
Proof.
  destruct (d !! "command") as [[| | | |c| |]|] eqn:Ec;
    try (left; intros (c' & _ & [=]); fail).
  destruct (decide (c = "")) as [->|Hne].
  - left. intros (c' & Hc' & [= <-]). done.
  - destruct (decide (Py.lower c ∈ ALLOWED_COMMANDS)); right; [right|left]; eauto.
Qed.

Lemma validate_payload_twice (payload : json) :
  validate_payload (validate_payload payload).1 = validate_payload payload.
Proof.
  destruct payload as [| | | | | |d]; try reflexivity.
  destruct (validate_payload_state d) as [H|(c & Hc & Hin & H)]; rewrite H.
  - done.
  - symmetry. by apply validate_payload_normalize.
Qed.

(** X1: validating a payload a second time changes nothing: the payload
    left by [validate_payload] is left as it is by a second call, which
    returns the same verdict (or raises the same exception). *)
Theorem validate_payload_idempotent (payload : json) :
  validate_payload (validate_payload payload).1 = validate_payload payload.
Proof. exact (validate_payload_twice payload). Qed.

Lemma validate_payload_pass_cases (d : gmap string json) (diag : option string) :
  (validate_payload (JDict d)).2 = Ok (true, diag) <->
  diag = None
  /\ exists c,
      d !! "command" = Some (JStr c)
      /\ ((Py.lower c = "spawn_object"
           /\ Py.truthy (Py.dict_get d "primitive_type") = true)
          \/ (Py.lower c = "delete_object"
              /\ Py.truthy (Py.dict_get d "object_name") = true)
          \/ (Py.lower c = "translate_mesh"
              /\ (is_vector (Py.dict_get d "offset") = Ok true
                  \/ (is_vector (Py.dict_get d "offset") = Ok false
                      /\ is_vector (Py.dict_get d "position") = Ok true)))
          \/ (Py.lower c = "rotate_mesh"
              /\ is_vector (Py.dict_get d "rotation") = Ok true)).
Proof.
  split.
  - destruct (validate_payload_cases d) as [Hno|[(c & Hc & Hne & Hnot)|(c & Hc & Hin)]].
    + by rewrite (validate_payload_no_command d Hno).
    + by rewrite (validate_payload_not_allowed d c Hc Hne Hnot).
    + rewrite (validate_payload_allowed_verdict d c Hc Hin).
      destruct (allowed_cases _ Hin) as [E | [E | [E | E]]]; rewrite E;
        cbn [String.eqb Ascii.eqb Bool.eqb andb].
      * destruct (Py.truthy _) eqn:Ht; intros [= <-]. split; [done|].
        exists c. split; [done|]. left. done.
      * destruct (Py.truthy _) eqn:Ht; intros [= <-]. split; [done|].
        exists c. split; [done|]. right. left. done.
      * destruct (is_vector (Py.dict_get d "offset")) as [[|]|e] eqn:Eo.
        -- intros [= <-]. split; [done|]. exists c. split; [done|].
           right. right. left. split; [done|]. by left.
        -- destruct (is_vector (Py.dict_get d "position")) as [[|]|e] eqn:Ep;
             intros [= <-]. split; [done|]. exists c. split; [done|].
           right. right. left. split; [done|]. by right.
        -- discriminate.
      * destruct (is_vector (Py.dict_get d "rotation")) as [[|]|e] eqn:Er;
          intros [= <-]. split; [done|]. exists c. split; [done|].
        right. right. right. done.
  - intros (-> & c & Hc & Hcase).
    assert (Hin : Py.lower c ∈ ALLOWED_COMMANDS).
    { unfold ALLOWED_COMMANDS.
      destruct Hcase as [[-> _]|[[-> _]|[[-> _]|[-> _]]]]; set_solver. }
    rewrite (validate_payload_allowed_verdict d c Hc Hin).
    destruct Hcase as [[E Ht]|[[E Ht]|[[E Ht]|[E Ht]]]]; rewrite E;
      cbn [String.eqb Ascii.eqb Bool.eqb andb].
    + by rewrite Ht.
    + by rewrite Ht.
    + destruct Ht as [-> | [-> ->]]; done.
    + by rewrite Ht.
Qed.

(** X2: a payload passes exactly when its command is, up to letter case,
    one of the four registered names and the field that command needs is
    there: a truthy [primitive_type] for [spawn_object], a truthy
    [object_name] for [delete_object], a vector under [offset] or, when
    [offset] is not one, under [position] for [translate_mesh], a vector
    under [rotation] for [rotate_mesh].  A passing verdict carries no
    diagnostic. *)
Theorem validate_payload_passes_iff (d : gmap string json) (diag : option string) :
  (validate_payload (JDict d)).2 = Ok (true, diag) <->
  diag = None
  /\ exists c,
      d !! "command" = Some (JStr c)
      /\ ((Py.lower c = "spawn_object"
           /\ Py.truthy (Py.dict_get d "primitive_type") = true)
          \/ (Py.lower c = "delete_object"
              /\ Py.truthy (Py.dict_get d "object_name") = true)
          \/ (Py.lower c = "translate_mesh"
              /\ (is_vector (Py.dict_get d "offset") = Ok true
                  \/ (is_vector (Py.dict_get d "offset") = Ok false
                      /\ is_vector (Py.dict_get d "position") = Ok true)))
          \/ (Py.lower c = "rotate_mesh"
              /\ is_vector (Py.dict_get d "rotation") = Ok true)).
Proof. exact (validate_payload_pass_cases d diag). Qed.

(** X3: what a verdict carries.  A pass carries no diagnostic, a failure
    always a diagnostic that is not empty, and the only exception raised is
    [OverflowError]. *)
Theorem validate_payload_verdict_shape (payload : json) :
  match (validate_payload payload).2 with
  | Ok (true, diag) => diag = None
  | Ok (false, diag) => exists msg, diag = Some msg /\ msg <> ""
  | Raise e => e = OverflowError
  end.
Proof.
  destruct (validate_payload payload).2 as [[[|] diag]|e] eqn:Hv.
  - destruct payload as [| | | | | |d]; try discriminate.
    by apply validate_payload_pass_cases in Hv as [-> _].
  - destruct payload as [| | | | | |d]; try (injection Hv as <-; by eexists).
    destruct (validate_payload_cases d) as [Hno|[(c & Hc & Hne & Hnot)|(c & Hc & Hin)]].
    + rewrite (validate_payload_no_command d Hno) in Hv. injection Hv as <-. by eexists.
    + rewrite (validate_payload_not_allowed d c Hc Hne Hnot) in Hv.
      injection Hv as <-. by eexists.
    + rewrite (validate_payload_allowed_verdict d c Hc Hin) in Hv.
      destruct (allowed_cases _ Hin) as [E | [E | [E | E]]]; rewrite E in Hv;
        cbn [String.eqb Ascii.eqb Bool.eqb andb] in Hv;
        repeat case_match; try discriminate; injection Hv as <-; by eexists.
  - by eapply validate_payload_raises.
Qed.

(** X4: the verdict depends on six keys only.  Two payloads that agree on
    [command], [primitive_type], [object_name], [offset], [position] and
    [rotation] get the same verdict, whatever else they hold. *)
Theorem validate_payload_ignores_other_keys (d1 d2 : gmap string json) :
  (forall k,
     k ∈ ["command"; "primitive_type"; "object_name"; "offset"; "position"; "rotation"] ->
     d1 !! k = d2 !! k) ->
  (validate_payload (JDict d1)).2 = (validate_payload (JDict d2)).2.
Proof.
  intros Hk.
  assert (Hg : forall k,
             k ∈ ["command"; "primitive_type"; "object_name"; "offset"; "position"; "rotation"] ->
             Py.dict_get d1 k = Py.dict_get d2 k).
  { intros k Hin. unfold Py.dict_get. by rewrite (Hk k Hin). }
  assert (Hcmd : d1 !! "command" = d2 !! "command") by (apply Hk; set_solver).
  destruct (validate_payload_cases d1) as [Hno|[(c & Hc & Hne & Hnot)|(c & Hc & Hin)]].
  - rewrite (validate_payload_no_command d1 Hno).
    rewrite (validate_payload_no_command d2); [done|]. by rewrite <- Hcmd.
  - rewrite (validate_payload_not_allowed d1 c Hc Hne Hnot).
    rewrite (validate_payload_not_allowed d2 c); [done| |done|done]. by rewrite <- Hcmd.
  - rewrite (validate_payload_allowed_verdict d1 c Hc Hin).
    rewrite (validate_payload_allowed_verdict d2 c); [|by rewrite <- Hcmd|done].
    rewrite !Hg by set_solver. reflexivity.
Qed.

Lemma validate_payload_ignores_other_keys_witness :
  (forall k,
     k ∈ ["command"; "primitive_type"; "object_name"; "offset"; "position"; "rotation"] ->
     ({[ "command" := JStr "delete_object"; "object_name" := JStr "Cube_A" ]}
        : gmap string json) !! k
     = ({[ "command" := JStr "delete_object"; "object_name" := JStr "Cube_A";
           "reason" := JInt 7 ]} : gmap string json) !! k)
  /\ (validate_payload
        (JDict {[ "command" := JStr "delete_object"; "object_name" := JStr "Cube_A" ]})).2
     = (validate_payload
          (JDict {[ "command" := JStr "delete_object"; "object_name" := JStr "Cube_A";
                    "reason" := JInt 7 ]})).2.
Proof.
  assert (H : forall k,
     k ∈ ["command"; "primitive_type"; "object_name"; "offset"; "position"; "rotation"] ->
     ({[ "command" := JStr "delete_object"; "object_name" := JStr "Cube_A" ]}
        : gmap string json) !! k
     = ({[ "command" := JStr "delete_object"; "object_name" := JStr "Cube_A";
           "reason" := JInt 7 ]} : gmap string json) !! k).
  { intros k Hin.
    repeat (apply elem_of_cons in Hin as [-> | Hin]; [vm_compute; reflexivity|]).
    by apply elem_of_nil in Hin. }
  split; [exact H|]. exact (validate_payload_ignores_other_keys _ _ H).
Defined.

Lemma float_overflow_iff (v : json) :
  Py.float v = Raise OverflowError <->
  exists n, v = JInt n /\ (2 ^ 1024 - 2 ^ 970 <= Z.abs n)%Z.
Proof.
  split.
  - destruct v as [| |n| |s| |]; simpl; try discriminate.
    + unfold Py.int_fits_double. destruct (Z.ltb_spec (Z.abs n) (2 ^ 1024 - 2 ^ 970));
        [discriminate|]. intros _. by exists n.
    + by destruct (Py.float_literal s).
  - intros (n & -> & Hn). simpl. unfold Py.int_fits_double.
    destruct (Z.ltb_spec (Z.abs n) (2 ^ 1024 - 2 ^ 970)); [lia|done].
Qed.

Lemma is_vector_raises_cause (v : json) (e : exn) :
  is_vector v = Raise e <->
  e = OverflowError
  /\ exists d x y z,
      v = JDict d
      /\ d !! "x" = Some x /\ d !! "y" = Some y /\ d !! "z" = Some z
      /\ (Py.float x = Raise OverflowError
          \/ (Py.float x = Ok tt /\ Py.float y = Raise OverflowError)
          \/ (Py.float x = Ok tt /\ Py.float y = Ok tt
              /\ Py.float z = Raise OverflowError)).
Proof.
  split.
  - intros Hv. pose proof (is_vector_raises _ _ Hv) as ->. split; [done|].
    destruct v as [| | | | | |d]; try discriminate.
    unfold is_vector, Py.getitem in Hv.
    destruct (bool_decide _) eqn:Hk; [|discriminate]. cbn [negb] in Hv.
    apply bool_decide_eq_true_1 in Hk.
    assert (Hx : is_Some (d !! "x")) by (apply elem_of_dom, Hk; set_solver).
    assert (Hy : is_Some (d !! "y")) by (apply elem_of_dom, Hk; set_solver).
    assert (Hz : is_Some (d !! "z")) by (apply elem_of_dom, Hk; set_solver).
    destruct Hx as [x Ex], Hy as [y Ey], Hz as [z Ez].
    rewrite Ex, Ey, Ez in Hv.
    exists d, x, y, z. split_and!; try done. simpl in Hv.
    destruct (Py.float x) as [[]|[]] eqn:Fx; simpl in Hv; try discriminate; [|by left].
    destruct (Py.float y) as [[]|[]] eqn:Fy; simpl in Hv; try discriminate;
      [|right; by left].
    destruct (Py.float z) as [[]|[]] eqn:Fz; simpl in Hv; try discriminate.
    right. right. done.
  - intros (-> & d & x & y & z & -> & Ex & Ey & Ez & Hcase).
    unfold is_vector, Py.getitem.
    rewrite bool_decide_eq_true_2.
    2:{ apply elem_of_dom_2 in Ex, Ey, Ez. set_solver. }
    cbn [negb]. rewrite Ex, Ey, Ez. simpl.
    destruct Hcase as [-> | [[-> ->] | (-> & -> & ->)]]; reflexivity.
Qed.

(** X5: [is_vector] raises exactly when, going through x, y and z in that
    order, the first value [float] refuses is refused with [OverflowError],
    that is, is an integer of magnitude [2^1024 - 2^970] or more.  A value
    refused earlier with [TypeError] or [ValueError] makes the answer
    [False] and hides an overflow behind it. *)
Theorem is_vector_raises_iff :
  (forall (v : json) (e : exn),
     is_vector v = Raise e <->
     e = OverflowError
     /\ exists d x y z,
         v = JDict d
         /\ d !! "x" = Some x /\ d !! "y" = Some y /\ d !! "z" = Some z
         /\ (Py.float x = Raise OverflowError
             \/ (Py.float x = Ok tt /\ Py.float y = Raise OverflowError)
             \/ (Py.float x = Ok tt /\ Py.float y = Ok tt
                 /\ Py.float z = Raise OverflowError)))
  /\ (forall v : json,
        Py.float v = Raise OverflowError <->
        exists n, v = JInt n /\ (2 ^ 1024 - 2 ^ 970 <= Z.abs n)%Z).
Proof. split; [exact is_vector_raises_cause|exact float_overflow_iff]. Qed.

(** X6: [validate_payload] raises exactly on a [translate_mesh] or
    [rotate_mesh] payload (in any letter case) whose vector check raises:
    for [translate_mesh] the check of [offset], or that of [position] once
    [offset] was found not to be a vector; for [rotate_mesh] the check of
    [rotation].  The exception is [OverflowError]; every other payload gets
    a verdict. *)
Theorem validate_payload_raises_iff (d : gmap string json) (e : exn) :
  (validate_payload (JDict d)).2 = Raise e <->
  e = OverflowError
  /\ exists c,
      d !! "command" = Some (JStr c)
      /\ ((Py.lower c = "translate_mesh"
           /\ (is_vector (Py.dict_get d "offset") = Raise OverflowError
               \/ (is_vector (Py.dict_get d "offset") = Ok false
                   /\ is_vector (Py.dict_get d "position") = Raise OverflowError)))
          \/ (Py.lower c = "rotate_mesh"
              /\ is_vector (Py.dict_get d "rotation") = Raise OverflowError)).
Proof.
  split.
  - intros Hv. pose proof (validate_payload_raises _ _ Hv) as ->. split; [done|].
    destruct (validate_payload_cases d) as [Hno|[(c & Hc & Hne & Hnot)|(c & Hc & Hin)]].
    + by rewrite (validate_payload_no_command d Hno) in Hv.
    + by rewrite (validate_payload_not_allowed d c Hc Hne Hnot) in Hv.
    + rewrite (validate_payload_allowed_verdict d c Hc Hin) in Hv.
      exists c. split; [done|].
      destruct (allowed_cases _ Hin) as [E | [E | [E | E]]]; rewrite E in Hv |- *;
        cbn [String.eqb Ascii.eqb Bool.eqb andb] in Hv.
      * by destruct (Py.truthy _).
      * by destruct (Py.truthy _).
      * left. split; [done|].
        destruct (is_vector (Py.dict_get d "offset")) as [[|]|e] eqn:Eo;
          try discriminate.
        -- right. split; [done|].
           destruct (is_vector (Py.dict_get d "position")) as [[|]|e] eqn:Ep;
             try discriminate. by injection Hv as ->.
        -- left. by injection Hv as ->.
      * right. split; [done|].
        destruct (is_vector (Py.dict_get d "rotation")) as [[|]|e] eqn:Er;
          try discriminate. by injection Hv as ->.
  - intros (-> & c & Hc & Hcase).
    assert (Hin : Py.lower c ∈ ALLOWED_COMMANDS).
    { unfold ALLOWED_COMMANDS. destruct Hcase as [[-> _]|[-> _]]; set_solver. }
    rewrite (validate_payload_allowed_verdict d c Hc Hin).
    destruct Hcase as [[E Ht]|[E Ht]]; rewrite E;
      cbn [String.eqb Ascii.eqb Bool.eqb andb].
    + destruct Ht as [-> | [-> ->]]; done.
    + by rewrite Ht.
Qed.

(** X7: the diagnostic "Missing or invalid 'command' field." is returned
    exactly when the payload has no [command] that is a non-empty string:
    the key is absent, or holds [None], a number, a boolean, a list, a
    dictionary or the empty string.  The payload is then left as it is. *)
Theorem missing_command_iff (d : gmap string json) :
  (validate_payload (JDict d)).2
  = Ok (false, Some "Missing or invalid 'command' field.")
  <-> ~ (exists c, c <> "" /\ d !! "command" = Some (JStr c)).
Proof.
  split.
  - intros Hv (c & Hne & Hc).
    destruct (decide (Py.lower c ∈ ALLOWED_COMMANDS)) as [Hin|Hnot].
    + rewrite (validate_payload_allowed_verdict d c Hc Hin) in Hv.
      destruct (allowed_cases _ Hin) as [E | [E | [E | E]]]; rewrite E in Hv;
        cbn [String.eqb Ascii.eqb Bool.eqb andb] in Hv;
        repeat case_match; discriminate.
    + rewrite (validate_payload_not_allowed d c Hc Hne Hnot) in Hv. discriminate.
  - intros Hno. by rewrite (validate_payload_no_command d Hno).
Qed.

(** ** More on [str.strip] *)

Lemma rstrip_rstrip (s : string) : Py.rstrip (Py.rstrip s) = Py.rstrip s.
Proof.
  induction s as [|c s IH]; [reflexivity|]. simpl.
  destruct (Py.rstrip s) as [|c2 r2] eqn:Er.
  - destruct (Py.is_space c) eqn:Ec; [reflexivity|]. simpl. by rewrite Ec.
  - change (Py.rstrip (String c (String c2 r2)))
      with (match Py.rstrip (String c2 r2) with
            | EmptyString => if Py.is_space c then EmptyString else String c EmptyString
            | r => String c r
            end).
    by rewrite IH.
Qed.

Lemma lstrip_head (s : string) :
  Py.lstrip s = "" \/ exists c s', Py.lstrip s = String c s' /\ Py.is_space c = false.
Proof.
  induction s as [|c s IH]; [by left|]. simpl.
  destruct (Py.is_space c) eqn:Ec; [exact IH|]. right. by exists c, s.
Qed.

Lemma rstrip_head (c : ascii) (s : string) :
  Py.is_space c = false -> exists r, Py.rstrip (String c s) = String c r.
Proof.
  intros Ec. simpl. destruct (Py.rstrip s); [rewrite Ec|]; eauto.
Qed.

Lemma strip_strip (s : string) : Py.strip (Py.strip s) = Py.strip s.
Proof.
  unfold Py.strip. destruct (lstrip_head s) as [->|(c & s' & -> & Ec)]; [reflexivity|].
  destruct (rstrip_head c s' Ec) as [r Hr].
  rewrite Hr at 1. simpl Py.lstrip. rewrite Ec, <- Hr. apply rstrip_rstrip.
Qed.

Section MoreTraceFacts.

Variable chat : nat -> list turn -> chat_outcome.
Variable json_loads : string -> loads_outcome.

Abbreviation trace' := (attempts_trace chat json_loads).
Abbreviation verdict_of' := (judge json_loads).

Lemma judge_crash o raw e :
  verdict_of' o = Crash raw e <->
  exists t, o = ChatResponse t /\ raw = Py.strip t
            /\ (json_loads raw = LoadsRaised e
                \/ exists p, json_loads raw = Parsed p
                             /\ (validate_payload p).2 = Raise e).
Proof.
  unfold judge. split.
  - destruct o as [|exc|t]; try discriminate.
    destruct (json_loads (Py.strip t)) as [parsed|exc|e'] eqn:Ej; try discriminate.
    + destruct (validate_payload parsed) as [p' [[[|] ve]|e']] eqn:Ev; try discriminate.
      intros [= <- <-]. exists t. split_and!; try done. right.
      exists parsed. rewrite Ej. split; [done|]. by rewrite Ev.
    + intros [= <- <-]. exists t. split_and!; try done. left. by rewrite Ej.
  - intros (t & -> & -> & [Ej|(p & Ej & Ev)]); rewrite Ej; [done|].
    destruct (validate_payload p) as [p' [[[|] ve]|e']]; simpl in Ev; congruence.
Qed.

Lemma judge_raw o raw err corr :
  verdict_of' o = Retry raw err corr ->
  forall t, o = ChatResponse t -> raw = Py.strip t.
Proof.
  intros Hj t ->. apply judge_retry in Hj.
  destruct Hj as (t' & [= <-] & -> & _). done.
Qed.

Lemma trace_zero a v log c v' :
  trace' a 0 v log c v' -> log = [] /\ c = Continue /\ v' = v.
Proof. by inversion 1. Qed.

(** The [i]-th call is made on the conversation grown by [i] pairs. *)
Lemma trace_call_length a n conv lo em log c v' :
  trace' a n (conv, lo, em) log c v' ->
  forall i cv o, log !! i = Some (cv, o) -> length cv = length conv + 2 * i.
Proof.
  intros Htr. remember (conv, lo, em) as v eqn:Hv. revert conv lo em Hv.
  induction Htr as [a v|a n conv0 lo0 em0 err Hj|a n conv0 lo0 em0 raw err corr log c v' Hj Htr IH
                   |a n conv0 lo0 em0 p raw Hj|a n conv0 lo0 em0 raw e Hj];
    intros conv lo em Hv i cv o Hi; try (injection Hv as -> -> ->).
  - by rewrite lookup_nil in Hi.
  - destruct i; simpl in Hi; [|by rewrite lookup_nil in Hi].
    injection Hi as <- <-. lia.
  - destruct i as [|i]; simpl in Hi.
    + injection Hi as <- <-. lia.
    + rewrite (IH _ _ _ eq_refl _ _ _ Hi), length_app. simpl. lia.
  - destruct i; simpl in Hi; [|by rewrite lookup_nil in Hi].
    injection Hi as <- <-. lia.
  - destruct i; simpl in Hi; [|by rewrite lookup_nil in Hi].
    injection Hi as <- <-. lia.
Qed.

Lemma trace_final_length a n conv lo em log c conv' lo' em' :
  trace' a n (conv, lo, em) log c (conv', lo', em') ->
  length conv <= length conv' <= length conv + 2 * n.
Proof.
  intros Htr. remember (conv, lo, em) as v eqn:Hv.
  remember (conv', lo', em') as v' eqn:Hv'. revert conv lo em Hv.
  induction Htr as [a v|a n conv0 lo0 em0 err Hj|a n conv0 lo0 em0 raw err corr log c v' Hj Htr IH
                   |a n conv0 lo0 em0 p raw Hj|a n conv0 lo0 em0 raw e Hj];
    intros conv lo em Hv.
  - subst v. injection Hv as -> -> ->. lia.
  - injection Hv as -> -> ->. injection Hv' as <- <- <-. lia.
  - injection Hv as -> -> ->.
    specialize (IH Hv' _ _ _ eq_refl). rewrite length_app in IH. simpl in IH. lia.
  - injection Hv as -> -> ->. injection Hv' as <- <- <-. lia.
  - injection Hv as -> -> ->. injection Hv' as <- <- <-. lia.
Qed.

(** An exception leaves the loop from the last call, a crashing one. *)
Lemma trace_raised a n v log e v' :
  trace' a n v log (Raised e) v' ->
  exists cv o raw,
    last log = Some (cv, o) /\ verdict_of' o = Crash raw e
    /\ exists em, v' = (cv, raw, em).
Proof.
  intros Htr. destruct (last log) as [[cv o]|] eqn:Hl.
  - pose proof (trace_last _ _ _ _ _ _ _ _ Htr _ _ Hl) as Hm.
    destruct (verdict_of' o) as [err|raw err corr|p raw|raw e'] eqn:Hj.
    + by destruct Hm.
    + by destruct Hm.
    + by destruct Hm.
    + destruct Hm as ([= ->] & Hv). by exists cv, o, raw.
  - apply last_None in Hl. rewrite Hl in Htr.
    by destruct (trace_empty _ _ _ _ _ _ _ Htr) as (_ & ? & _).
Qed.

(** The last output kept when the loop breaks is that of the attempt
    before. *)
Lemma trace_fatal_output a n conv lo em log c conv' lo' em' :
  trace' a n (conv, lo, em) log c (conv', lo', em') ->
  forall i cv o err,
    log !! i = Some (cv, o) -> verdict_of' o = Fatal err ->
    (i = 0 -> lo' = lo)
    /\ (forall j cv' t, i = S j -> log !! j = Some (cv', ChatResponse t) ->
          lo' = Py.strip t).
Proof.
  intros Htr. remember (conv, lo, em) as v eqn:Hv.
  remember (conv', lo', em') as v' eqn:Hv'. revert conv lo em Hv.
  induction Htr as [a v|a n conv0 lo0 em0 err0 Hj|a n conv0 lo0 em0 raw err0 corr log c v' Hj Htr IH
                   |a n conv0 lo0 em0 p raw Hj|a n conv0 lo0 em0 raw e Hj];
    intros conv lo em Hv i cv o err Hi Hf.
  - by rewrite lookup_nil in Hi.
  - injection Hv as -> -> ->. injection Hv' as <- <- <-.
    destruct i; simpl in Hi; [|by rewrite lookup_nil in Hi].
    split; [done|]. intros; discriminate.
  - injection Hv as -> -> ->. destruct i as [|i]; simpl in Hi.
    + injection Hi as <- <-. congruence.
    + destruct (IH Hv' _ _ _ eq_refl _ _ _ _ Hi Hf) as (H0 & HS).
      split; [intros; discriminate|].
      intros j cv' t [= <-] Hj'. destruct i as [|i].
      * simpl in Hj'. injection Hj' as <- Hc. rewrite H0 by done.
        rewrite Hc in Hj. by eapply judge_raw.
      * simpl in Hj'. by eapply HS.
  - injection Hv as -> -> ->.
    destruct i; simpl in Hi; [|by rewrite lookup_nil in Hi].
    injection Hi as <- <-. congruence.
  - injection Hv as -> -> ->.
    destruct i; simpl in Hi; [|by rewrite lookup_nil in Hi].
    injection Hi as <- <-. congruence.
Qed.

(** Every text kept or returned by the loop went through [strip]. *)
Lemma trace_stripped a n conv lo em log c conv' lo' em' :
  trace' a n (conv, lo, em) log c (conv', lo', em') ->
  Py.strip lo = lo ->
  Py.strip lo' = lo'
  /\ (forall payload raw ok e, c = Return (payload, raw, ok, e) -> Py.strip raw = raw).
Proof.
  intros Htr. remember (conv, lo, em) as v eqn:Hv.
  remember (conv', lo', em') as v' eqn:Hv'. revert conv lo em Hv.
  induction Htr as [a v|a n conv0 lo0 em0 err0 Hj|a n conv0 lo0 em0 raw err0 corr log c v' Hj Htr IH
                   |a n conv0 lo0 em0 p raw Hj|a n conv0 lo0 em0 raw e Hj];
    intros conv lo em Hv Hlo.
  - subst v. injection Hv as -> -> ->. split; [done|]. intros; discriminate.
  - injection Hv as -> -> ->. injection Hv' as <- <- <-.
    split; [done|]. intros; discriminate.
  - injection Hv as -> -> ->. apply (IH Hv' _ _ _ eq_refl).
    apply judge_retry in Hj. destruct Hj as (t & _ & -> & _). apply strip_strip.
  - injection Hv as -> -> ->. injection Hv' as <- <- <-.
    apply judge_accept in Hj. destruct Hj as (t & ? & ? & _ & -> & _).
    split; [apply strip_strip|]. intros ???? [= <- <- <- <-]. apply strip_strip.
  - injection Hv as -> -> ->. injection Hv' as <- <- <-.
    apply judge_crash in Hj. destruct Hj as (t & _ & -> & _).
    split; [apply strip_strip|]. intros; discriminate.
Qed.

End MoreTraceFacts.

(** ** More on the orchestrator *)

Section MoreOrchestrator.

Variable chat : nat -> list turn -> chat_outcome.
Variable json_loads : string -> loads_outcome.

Abbreviation run_with := (request_with_validation chat json_loads).

(** X8: the attempt budget is a bound.  A run makes at most [max_attempts]
    completion calls; with a budget of zero or less it makes none and
    returns the failure tuple with an empty raw text and the message "Model
    response was not valid after retries", the conversation being copied
    but not extended. *)
Theorem attempt_budget_respected (h : store) (base : loc)
    (max_attempts : Z) (conv : list turn) :
  read_messages h base = Some conv ->
  exists r,
    run_with h base max_attempts = Some r
    /\ length (completion_calls r) <= Z.to_nat max_attempts
    /\ ((max_attempts <= 0)%Z ->
        completion_calls r = []
        /\ outcome r = Ok (None, "", false,
                           Some "Model response was not valid after retries")
        /\ read_messages (final_heap r) (messages_loc r) = Some conv).
Proof.
  intros Hr.
  destruct (run_trace chat json_loads h base max_attempts conv Hr)
    as (r & c & conv' & lo & em & Hrun & Htr & Hout & Hsub & Hpriv & Hfin).
  exists r. split; [exact Hrun|]. split.
  - by eapply trace_length.
  - intros Hle. replace (Z.to_nat max_attempts) with 0 in Htr by lia.
    destruct (trace_zero _ _ _ _ _ _ _ Htr) as (Hlog & -> & [= -> -> ->]).
    by rewrite Hout.
Qed.

(** X9: how long the conversation gets.  The call of attempt [i] is made
    on the caller's conversation followed by exactly [2 * i] turns, and the
    conversation the run ends with is at least as long as the caller's and
    at most [2 * max_attempts] turns longer. *)
Theorem conversation_length_bounds (h : store) (base : loc)
    (max_attempts : Z) (conv : list turn) :
  read_messages h base = Some conv ->
  exists r final,
    run_with h base max_attempts = Some r
    /\ read_messages (final_heap r) (messages_loc r) = Some final
    /\ (forall i cv o,
          completion_calls r !! i = Some (cv, o) ->
          length cv = length conv + 2 * i)
    /\ length conv <= length final <= length conv + 2 * Z.to_nat max_attempts.
Proof.
  intros Hr.
  destruct (run_trace chat json_loads h base max_attempts conv Hr)
    as (r & c & conv' & lo & em & Hrun & Htr & Hout & Hsub & Hpriv & Hfin).
  exists r, conv'. split; [exact Hrun|]. split; [exact Hfin|]. split.
  - by eapply trace_call_length.
  - by eapply trace_final_length.
Qed.

(** X10: the payload returned with success is in the validator's normal
    form: it is a dictionary whose [command] is one of the registered
    names, spelled in lower case, and validating it again passes and leaves
    it as it is. *)
Theorem success_payload_revalidates (h : store) (base : loc)
    (max_attempts : Z) (conv : list turn) :
  read_messages h base = Some conv ->
  exists r,
    run_with h base max_attempts = Some r
    /\ forall payload raw e,
         outcome r = Ok (Some payload, raw, true, e) ->
         validate_payload payload = (payload, Ok (true, None))
         /\ exists d c, payload = JDict d
                        /\ d !! "command" = Some (JStr c)
                        /\ c ∈ ALLOWED_COMMANDS.
Proof.
  intros Hr.
  destruct (run_trace chat json_loads h base max_attempts conv Hr)
    as (r & c & conv' & lo & em & Hrun & Htr & Hout & Hsub & Hpriv & Hfin).
  exists r. split; [exact Hrun|].
  intros payload raw e Ho. rewrite Hout in Ho.
  apply conclude_success in Ho. subst c.
  destruct (trace_return _ _ _ _ _ _ _ _ Htr)
    as (cv & o & p & raw' & Hl & Hj & [= -> -> ->]).
  apply judge_accept in Hj.
  destruct Hj as (t & parsed & diag & _ & _ & _ & Hv).
  assert (Hfst : (validate_payload parsed).1 = p) by (by rewrite Hv).
  assert (Hsnd : (validate_payload parsed).2 = Ok (true, diag)) by (by rewrite Hv).
  destruct parsed as [| | | | | |d]; try discriminate.
  apply validate_payload_pass_cases in Hsnd as (-> & c & Hc & Hcase).
  assert (Hin : Py.lower c ∈ ALLOWED_COMMANDS).
  { unfold ALLOWED_COMMANDS.
    destruct Hcase as [[-> _]|[[-> _]|[[-> _]|[-> _]]]]; set_solver. }
  split.
  - rewrite <- Hfst, validate_payload_twice. by rewrite Hv.
  - rewrite (validate_payload_allowed_state d c Hc Hin) in Hfst. subst p.
    eexists _, _. split; [reflexivity|]. by rewrite lookup_insert_eq.
Qed.

(** X11: an exception is not retried.  The run raises [e] exactly when its
    last call returned a text on which [json.loads] raised [e] (an
    exception other than [JSONDecodeError]) or which parsed to a payload on
    which the validator raised [e]; no corrective turn is added for that
    attempt. *)
Theorem exception_leaves_run (h : store) (base : loc)
    (max_attempts : Z) (conv : list turn) :
  read_messages h base = Some conv ->
  exists r,
    run_with h base max_attempts = Some r
    /\ (forall e,
          outcome r = Raise e <->
          exists cv t,
            last (completion_calls r) = Some (cv, ChatResponse t)
            /\ (json_loads (Py.strip t) = LoadsRaised e
                \/ exists p, json_loads (Py.strip t) = Parsed p
                             /\ (validate_payload p).2 = Raise e))
    /\ (forall e cv o,
          outcome r = Raise e -> last (completion_calls r) = Some (cv, o) ->
          read_messages (final_heap r) (messages_loc r) = Some cv).
Proof.
  intros Hr.
  destruct (run_trace chat json_loads h base max_attempts conv Hr)
    as (r & c & conv' & lo & em & Hrun & Htr & Hout & Hsub & Hpriv & Hfin).
  exists r. split; [exact Hrun|].
  assert (Hraised : forall e, outcome r = Raise e -> c = Raised e).
  { intros e Ho. rewrite Hout in Ho. destruct c; simpl in Ho; congruence. }
  split.
  - intros e. split.
    + intros Ho. apply Hraised in Ho. subst c.
      destruct (trace_raised _ _ _ _ _ _ _ _ Htr) as (cv & o & raw & Hl & Hj & _).
      apply judge_crash in Hj. destruct Hj as (t & -> & -> & Hcase).
      by exists cv, t.
    + intros (cv & t & Hl & Hcase).
      assert (Hj : judge json_loads (ChatResponse t) = Crash (Py.strip t) e).
      { apply judge_crash. by exists t. }
      pose proof (trace_last _ _ _ _ _ _ _ _ Htr _ _ Hl) as Hm.
      rewrite Hj in Hm. destruct Hm as (-> & _). by rewrite Hout.
  - intros e cv o Ho Hl. apply Hraised in Ho. subst c.
    destruct (trace_raised _ _ _ _ _ _ _ _ Htr)
      as (cv' & o' & raw & Hl' & _ & em' & [= -> _ _]).
    congruence.
Qed.

(** X12: after a time-out or a failed call the raw text returned is the one
    kept from the attempt before: the empty string when the first call
    fails, otherwise the (stripped) text of the preceding, rejected
    attempt, returned beside the error message of the failed call. *)
Theorem fatal_keeps_previous_output (h : store) (base : loc)
    (max_attempts : Z) (conv : list turn) :
  read_messages h base = Some conv ->
  exists r,
    run_with h base max_attempts = Some r
    /\ forall i cv o,
         completion_calls r !! i = Some (cv, o) ->
         o = ChatTimeout \/ (exists exc, o = ChatFailed exc) ->
         exists raw err,
           outcome r = Ok (None, raw, false, Some err)
           /\ (i = 0 -> raw = "")
           /\ (forall j cv' t,
                 i = S j ->
                 completion_calls r !! j = Some (cv', ChatResponse t) ->
                 raw = Py.strip t).
Proof.
  intros Hr.
  destruct (run_trace chat json_loads h base max_attempts conv Hr)
    as (r & c & conv' & lo & em & Hrun & Htr & Hout & Hsub & Hpriv & Hfin).
  exists r. split; [exact Hrun|].
  intros i cv o Hi Ho.
  assert (Hj : exists err, judge json_loads o = Fatal err).
  { destruct Ho as [->|[exc ->]]; simpl; eauto. }
  destruct Hj as [err Hj].
  destruct (trace_final_call _ _ _ _ _ _ _ _ Htr _ _ _ Hi) as (_ & Hl).
  { intros ???. congruence. }
  pose proof (trace_last _ _ _ _ _ _ _ _ Htr _ _ Hl) as Hm.
  rewrite Hj in Hm. destruct Hm as (-> & lo' & [= -> -> ->]).
  destruct (trace_fatal_output _ _ _ _ _ _ _ _ _ _ _ _ Htr _ _ _ _ Hi Hj) as (H0 & HS).
  exists lo', err. split; [|by split].
  rewrite Hout. simpl. f_equal. f_equal.
  destruct Ho as [->|[exc ->]]; simpl in Hj; injection Hj as <-; reflexivity.
Qed.

(** X13: the raw text a run returns has no white space at either end:
    stripping it again changes nothing, on success and on failure. *)
Theorem raw_output_stripped (h : store) (base : loc)
    (max_attempts : Z) (conv : list turn) :
  read_messages h base = Some conv ->
  exists r,
    run_with h base max_attempts = Some r
    /\ forall payload raw ok e,
         outcome r = Ok (payload, raw, ok, e) -> Py.strip raw = raw.
Proof.
  intros Hr.
  destruct (run_trace chat json_loads h base max_attempts conv Hr)
    as (r & c & conv' & lo & em & Hrun & Htr & Hout & Hsub & Hpriv & Hfin).
  exists r. split; [exact Hrun|].
  intros payload raw ok e Ho. rewrite Hout in Ho.
  destruct (trace_stripped _ _ _ _ _ _ _ _ _ _ _ _ Htr eq_refl) as (Hlo & Hret).
  destruct c as [| |x|e']; simpl in Ho; try discriminate.
  - by injection Ho as <- <- <- <-.
  - by injection Ho as <- <- <- <-.
  - injection Ho as ->. by eapply Hret.
Qed.

(** X14: a run sees the caller's conversation by value.  Two calls whose
    [base_messages] hold the same turns, in whatever stores and with
    whatever sharing between the turn objects, make the same completion
    calls and return the same result. *)
Theorem run_depends_on_conversation_only (h1 h2 : store) (base1 base2 : loc)
    (max_attempts : Z) (conv : list turn) :
  read_messages h1 base1 = Some conv ->
  read_messages h2 base2 = Some conv ->
  exists r1 r2,
    run_with h1 base1 max_attempts = Some r1
    /\ run_with h2 base2 max_attempts = Some r2
    /\ outcome r1 = outcome r2
    /\ completion_calls r1 = completion_calls r2.
Proof.
  intros Hr1 Hr2.
  destruct (run_trace chat json_loads h1 base1 max_attempts conv Hr1)
    as (r1 & c1 & conv1 & lo1 & em1 & Hrun1 & Htr1 & Hout1 & _).
  destruct (run_trace chat json_loads h2 base2 max_attempts conv Hr2)
    as (r2 & c2 & conv2 & lo2 & em2 & Hrun2 & Htr2 & Hout2 & _).
  exists r1, r2. split; [exact Hrun1|]. split; [exact Hrun2|].
  destruct (trace_det _ _ _ _ _ _ _ _ Htr1 _ _ _ Htr2) as (Hlog & -> & [= -> -> ->]).
  split; [congruence|exact Hlog].
Qed.

End MoreOrchestrator.

(** ** The request handler and further sample runs *)

(** X15: the handler never answers.  Whatever the request body and
    whatever the transcription and [json.dumps] return, [process_input]
    raises before it reaches [request_with_validation], so no completion
    call is made; when the body is a JSON object, the transcription
    succeeds and the context (if any) serializes, the exception is the
    [UnboundLocalError] of the first read of [chat_history]. *)
Theorem process_input_always_raises chat json_loads speech_to_text json_dumps
    (h : store) (data : json) :
  exists e,
    process_input chat json_loads speech_to_text json_dumps h data
    = Some (Throws e, [])
    /\ (forall d text,
          data = JDict d ->
          speech_to_text (Py.dict_get d "audio") = Returns text ->
          (Py.truthy (Py.dict_get d "context") = true ->
           exists s, json_dumps (Py.dict_get d "context") = Returns s) ->
          e = UnboundLocalError).
Proof.
  unfold process_input.
  destruct data as [| | | | | |d];
    try (exists AttributeError; split; [reflexivity|intros; discriminate]).
  destruct (speech_to_text (Py.dict_get d "audio")) as [text|e] eqn:Es.
  2:{ exists e. split; [reflexivity|]. intros d' text [= <-] Ht. congruence. }
  destruct (Py.truthy (Py.dict_get d "context")) eqn:Hc.
  - destruct (json_dumps (Py.dict_get d "context")) as [s|e] eqn:Ed.
    + exists UnboundLocalError. by split.
    + exists e. split; [reflexivity|]. intros d' text' [= <-] _ Hd.
      destruct (Hd Hc) as [s Hs]. congruence.
  - exists UnboundLocalError. by split.
Qed.

Lemma process_input_always_raises_witness :
  process_input chat_prose_then_json sample_loads sample_transcribe sample_dumps
    sample_store sample_request
  = Some (Throws UnboundLocalError, []).
Proof.
  destruct (process_input_always_raises chat_prose_then_json sample_loads
              sample_transcribe sample_dumps sample_store sample_request)
    as (e & Hrun & He).
  rewrite Hrun. repeat f_equal.
  apply (He (list_to_map [("audio", JStr "UklGRg==")]) "move the cube up one meter");
    [reflexivity|reflexivity|].
  intros Hc. vm_compute in Hc. discriminate.
Defined.

Lemma attempt_budget_respected_witness :
  read_messages sample_store 1%positive = Some sample_conversation
  /\ exists r,
       request_with_validation chat_prose sample_loads sample_store 1%positive 0
       = Some r
       /\ completion_calls r = []
       /\ outcome r = Ok (None, "", false,
                          Some "Model response was not valid after retries").
Proof.
  assert (Hr : read_messages sample_store 1%positive = Some sample_conversation)
    by (vm_compute; reflexivity).
  split; [exact Hr|].
  destruct (attempt_budget_respected chat_prose sample_loads
              sample_store 1%positive 0 sample_conversation Hr)
    as (r & Hrun & _ & Hzero).
  exists r. split; [exact Hrun|].
  destruct Hzero as (Hc & Ho & _); [reflexivity|]. by split.
Defined.

Lemma conversation_length_bounds_witness :
  read_messages sample_store 1%positive = Some sample_conversation
  /\ exists r final,
       request_with_validation chat_prose sample_loads sample_store 1%positive 2
       = Some r
       /\ read_messages (final_heap r) (messages_loc r) = Some final
       /\ 1 <= length final <= 5.
Proof.
  assert (Hr : read_messages sample_store 1%positive = Some sample_conversation)
    by (vm_compute; reflexivity).
  split; [exact Hr|].
  destruct (conversation_length_bounds chat_prose sample_loads
              sample_store 1%positive 2 sample_conversation Hr)
    as (r & final & Hrun & Hfin & _ & Hlen).
  exists r, final. split; [exact Hrun|]. split; [exact Hfin|]. exact Hlen.
Defined.

Lemma success_payload_revalidates_witness :
  read_messages sample_store 1%positive = Some sample_conversation
  /\ exists r,
       request_with_validation chat_prose_then_json sample_loads
         sample_store 1%positive 2 = Some r
       /\ validate_payload translate_up = (translate_up, Ok (true, None)).
Proof.
  assert (Hr : read_messages sample_store 1%positive = Some sample_conversation)
    by (vm_compute; reflexivity).
  split; [exact Hr|].
  destruct (success_payload_revalidates chat_prose_then_json sample_loads
              sample_store 1%positive 2 sample_conversation Hr)
    as (r & Hrun & Hok).
  exists r. split; [exact Hrun|].
  assert (Ho : outcome <$> request_with_validation chat_prose_then_json sample_loads
                            sample_store 1%positive 2
               = Some (Ok (Some translate_up, translate_text, true, None)))
    by (vm_compute; reflexivity).
  rewrite Hrun in Ho. injection Ho as Ho.
  exact (proj1 (Hok _ _ _ Ho)).
Defined.

Lemma exception_leaves_run_witness :
  read_messages sample_store 1%positive = Some sample_conversation
  /\ exists r,
       request_with_validation chat_huge sample_loads_wide sample_store 1%positive 2
       = Some r
       /\ outcome r = Raise OverflowError.
Proof.
  assert (Hr : read_messages sample_store 1%positive = Some sample_conversation)
    by (vm_compute; reflexivity).
  split; [exact Hr|].
  destruct (exception_leaves_run chat_huge sample_loads_wide
              sample_store 1%positive 2 sample_conversation Hr)
    as (r & Hrun & Hiff & _).
  exists r. split; [exact Hrun|].
  assert (Hl : last <$> (completion_calls <$>
                 request_with_validation chat_huge sample_loads_wide
                   sample_store 1%positive 2)
               = Some (Some (sample_conversation, ChatResponse huge_rotation_text)))
    by (vm_compute; reflexivity).
  rewrite Hrun in Hl. injection Hl as Hl.
  apply Hiff. exists sample_conversation, huge_rotation_text. split; [exact Hl|].
  right. exists huge_rotation. split; vm_compute; reflexivity.
Defined.

Lemma fatal_keeps_previous_output_witness :
  read_messages sample_store 1%positive = Some sample_conversation
  /\ exists r err,
       request_with_validation chat_prose_then_timeout sample_loads
         sample_store 1%positive 2 = Some r
       /\ outcome r
          = Ok (None, "Sure! I will move the cube up.", false, Some err).
Proof.
  assert (Hr : read_messages sample_store 1%positive = Some sample_conversation)
    by (vm_compute; reflexivity).
  split; [exact Hr|].
  destruct (fatal_keeps_previous_output chat_prose_then_timeout sample_loads
              sample_store 1%positive 2 sample_conversation Hr)
    as (r & Hrun & Hfatal).
  set (cv1 := (sample_conversation
               ++ [assistant_turn "Sure! I will move the cube up.";
                   user_turn (parse_correction
                                "Expecting value: line 1 column 1 (char 0)")])%list).
  assert (Hcalls : completion_calls <$>
                     request_with_validation chat_prose_then_timeout sample_loads
                       sample_store 1%positive 2
                   = Some [(sample_conversation,
                            ChatResponse " Sure! I will move the cube up. ");
                           (cv1, ChatTimeout)])
    by (vm_compute; reflexivity).
  rewrite Hrun in Hcalls. injection Hcalls as Hcalls.
  assert (H0 : completion_calls r !! 0
               = Some (sample_conversation,
                       ChatResponse " Sure! I will move the cube up. "))
    by (by rewrite Hcalls).
  assert (H1 : completion_calls r !! 1 = Some (cv1, ChatTimeout))
    by (by rewrite Hcalls).
  destruct (Hfatal 1 cv1 ChatTimeout H1 (or_introl eq_refl))
    as (raw & err & Ho & _ & Hprev).
  exists r, err. split; [exact Hrun|].
  rewrite Ho, (Hprev 0 _ _ eq_refl H0). reflexivity.
Defined.

Lemma raw_output_stripped_witness :
  read_messages sample_store 1%positive = Some sample_conversation
  /\ exists r,
       request_with_validation chat_prose_then_json sample_loads
         sample_store 1%positive 2 = Some r
       /\ forall payload raw ok e,
            outcome r = Ok (payload, raw, ok, e) -> Py.strip raw = raw.
Proof.
  assert (Hr : read_messages sample_store 1%positive = Some sample_conversation)
    by (vm_compute; reflexivity).
  split; [exact Hr|].
  exact (raw_output_stripped chat_prose_then_json sample_loads
           sample_store 1%positive 2 sample_conversation Hr).
Defined.

Lemma run_depends_on_conversation_only_witness :
  (read_messages shared_store 1%positive
   = Some [user_turn "again"; user_turn "again"]
   /\ read_messages unshared_store 4%positive
      = Some [user_turn "again"; user_turn "again"])
  /\ exists r1 r2,
       request_with_validation chat_prose sample_loads shared_store 1%positive 2
       = Some r1
       /\ request_with_validation chat_prose sample_loads unshared_store 4%positive 2
          = Some r2
       /\ outcome r1 = outcome r2
       /\ completion_calls r1 = completion_calls r2.
Proof.
  assert (H1 : read_messages shared_store 1%positive
               = Some [user_turn "again"; user_turn "again"])
    by (vm_compute; reflexivity).
  assert (H2 : read_messages unshared_store 4%positive
               = Some [user_turn "again"; user_turn "again"])
    by (vm_compute; reflexivity).
  split; [by split|].
  exact (run_depends_on_conversation_only chat_prose sample_loads
           shared_store unshared_store 1%positive 4%positive 2 _ H1 H2).
Defined.
